(** * pkg/remote: the OCI remote resource loader

    A shallow embedding of [ociRemoteLoader] (package [remote]): the
    constructor [NewOCIRemoteLoader], [Accept] and [Load], together with the
    part of the outside world that [Load] talks to: a file system, the
    registry resolver, the reference parser and the JSON decoder.

    Go strings and byte slices are both byte sequences; they are modelled
    as [string].  A Go function returning [(T, error)] returns an
    [outcome T]; a run-time panic is a third outcome.  Effects are threaded
    through a [World]: the file-system tree and the trace of every external
    call made so far (newest first). *)

From Stdlib Require Import String Ascii List Arith Lia.
From stdpp Require Import base strings gmap list.

Local Open Scope string_scope.

Module Remote.

(** ** Errors and outcomes *)

(** The [syscall.Errno] values the model distinguishes. *)
Inductive Errno := ENOENT | ENOTDIR | EISDIR | EBADF | EACCES | EIO | ENOSPC | EROFS.

(** Failures the environment may inject into a file-system call
    (permissions, media errors, a full or read-only disk).  [ENOENT] is
    not among them: whether a path exists is decided by the tree. *)
Inductive Fault := FaultAccess | FaultIO | FaultNoSpace | FaultReadOnly.

Definition fault_errno (f : Fault) : Errno :=
  match f with
  | FaultAccess => EACCES
  | FaultIO => EIO
  | FaultNoSpace => ENOSPC
  | FaultReadOnly => EROFS
  end.

Definition errno_string (e : Errno) : string :=
  match e with
  | ENOENT => "no such file or directory"
  | ENOTDIR => "not a directory"
  | EISDIR => "is a directory"
  | EBADF => "bad file descriptor"
  | EACCES => "permission denied"
  | EIO => "input/output error"
  | ENOSPC => "no space left on device"
  | EROFS => "read-only file system"
  end.

(** Go [error] values: those of the external libraries (opaque, carried
    verbatim), [*fs.PathError] of package [os], and [fmt.Errorf]. *)
Inductive error :=
| LibError (pkg msg : string)
| PathError (op path : string) (e : Errno)
| Errorf (msg : string).

Definition error_Error (e : error) : string :=
  match e with
  | LibError _ msg => msg
  | PathError op path no => op +:+ " " +:+ path +:+ ": " +:+ errno_string no
  | Errorf msg => msg
  end.

Inductive outcome (A : Type) :=
| Ok (a : A)
| Fail (e : error)
| Panic (msg : string).
Arguments Ok {A} a.
Arguments Fail {A} e.
Arguments Panic {A} msg.

(** [os.IsNotExist(err)]; [None] is the nil error. *)
Definition os_IsNotExist (err : option error) : bool :=
  match err with
  | Some (PathError _ _ ENOENT) => true
  | _ => false
  end.

(** ** OCI data: digests, descriptors, manifests *)

(** A validated [digest.Digest], [Algorithm ":" Hex]. *)
Record Digest := { Algorithm : string; Hex : string }.

Definition Digest_String (d : Digest) : string :=
  Algorithm d +:+ ":" +:+ Hex d.

(** [v1.Descriptor]. *)
Record Descriptor := {
  MediaType : string;
  Digest_ : Digest;
  Size : Z
}.

(** [v1.Manifest]: the config descriptor and the ordered layers. *)
Record Manifest := {
  Config : Descriptor;
  Layers : list Descriptor
}.

(** ** The world *)

Inductive node := Dir | File (data : string).

(** File-system calls, as the fault oracle and the trace see them. *)
Inductive FsOp :=
| OpStat (p : string)
| OpMkdirAll (p : string)
| OpCreate (p : string)
| OpWrite (p data : string)
| OpClose (p : string).

Inductive Event :=
| EvGet (ref : string) (res : outcome (string * Descriptor))
| EvFs (op : FsOp).

Record World := {
  nodes : gmap string node;
  trace : list Event
}.

Definition log (ev : Event) (w : World) : World :=
  {| nodes := nodes w; trace := ev :: trace w |}.

Definition set_nodes (m : gmap string node) (w : World) : World :=
  {| nodes := m; trace := trace w |}.

(** The collaborators that are not part of this package. *)
Record Externals := {
  Cli : Type;      (* command.Cli *)
  Opt : Type;      (* imagetools.Opt *)
  Context : Type;  (* context.Context *)
  Named : Type;    (* reference.Named *)
  (* xdg.CacheHome *)
  xdg_CacheHome : string;
  (* reference.ParseDockerRef, Named.String, reference.WithDigest *)
  ParseDockerRef : string -> outcome Named;
  Named_String : Named -> string;
  WithDigest : Named -> Digest -> outcome Named;
  (* storeutil.GetImageConfig(dockerCli, nil) *)
  GetImageConfig : Cli -> outcome Opt;
  (* what the registry answers to resolver.Get, given everything that
     happened before *)
  registry : Opt -> Context -> World -> string -> outcome (string * Descriptor);
  (* json.Unmarshal into a v1.Manifest *)
  Unmarshal : string -> outcome Manifest;
  (* injected file-system failures *)
  fs_fault : World -> FsOp -> option Fault
}.

(** ** The monad of [Load]: state, errors and panics.  The world
    survives a failure: whatever was written stays written. *)
Definition M (A : Type) : Type := World -> outcome A * World.

Definition ret {A} (a : A) : M A := fun w => (Ok a, w).

Definition bind {A B} (m : M A) (k : A -> M B) : M B :=
  fun w =>
    match m w with
    | (Ok a, w') => k a w'
    | (Fail e, w') => (Fail e, w')
    | (Panic s, w') => (Panic s, w')
    end.

Definition lift {A} (o : outcome A) : M A := fun w => (o, w).

(** [defer d] around [body]: [d] runs when [body] is left, whatever its
    outcome, and its own result is dropped. *)
Definition defer {A B} (d : M B) (body : M A) : M A :=
  fun w => let (r, w') := body w in (r, snd (d w')).

Declare Scope go_scope.
Delimit Scope go_scope with go.
Notation "x <- m ;; k" := (bind m (fun x => k))
  (at level 100, m at next level, right associativity) : go_scope.
Notation "m ;;; k" := (bind m (fun _ => k))
  (at level 100, right associativity) : go_scope.

(** ** path/filepath on clean slash-separated paths *)

Definition slash : ascii := "/"%char.

(** [filepath.Join] of two elements: empty elements are ignored, the rest
    is joined with a slash.  ([Clean] is the identity on what is joined
    here: clean elements without [.] and [..].) *)
Definition filepath_Join (a b : string) : string :=
  if String.eqb a "" then b
  else if String.eqb b "" then a
  else if String.eqb a "/" then a +:+ b
  else a +:+ "/" +:+ b.

(** The part of [s] before its last slash; [None] without a slash. *)
Fixpoint cut_last (s : string) : option string :=
  match s with
  | EmptyString => None
  | String c s' =>
      match cut_last s' with
      | Some r => Some (String c r)
      | None => if Ascii.eqb c slash then Some EmptyString else None
      end
  end.

Fixpoint rstrip_slash (s : string) : string :=
  match s with
  | EmptyString => EmptyString
  | String c s' =>
      match rstrip_slash s' with
      | EmptyString => if Ascii.eqb c slash then EmptyString else String c EmptyString
      | r => String c r
      end
  end.

(** [filepath.Dir]: all but the last element, without trailing slashes;
    ["."] for a path without a slash, ["/"] when only slashes remain. *)
Definition filepath_Dir (p : string) : string :=
  match cut_last p with
  | None => "."
  | Some r =>
      match rstrip_slash r with
      | EmptyString => "/"
      | d => d
      end
  end.

(** The directories [os.MkdirAll p] walks through, outermost first and [p]
    last; the root is not among them. *)
Fixpoint walk (acc s : string) : list string :=
  match s with
  | EmptyString => if String.eqb acc "" then [] else [acc]
  | String c s' =>
      (if Ascii.eqb c slash && negb (String.eqb acc "") then [acc] else [])
        ++ walk (acc +:+ String c EmptyString) s'
  end.

(** ** Package os *)

Section WithExternals.
Context (E : Externals).

(** [os.Stat(p)]: only the error is looked at by the caller. *)
Definition os_Stat (p : string) : M (option error) :=
  fun w =>
    let w' := log (EvFs (OpStat p)) w in
    match fs_fault E w (OpStat p) with
    | Some f => (Ok (Some (PathError "stat" p (fault_errno f))), w')
    | None =>
        match nodes w !! p with
        | Some _ => (Ok None, w')
        | None => (Ok (Some (PathError "stat" p ENOENT)), w')
        end
    end.

(** One [Mkdir] per directory of the walk; an existing directory is kept. *)
Fixpoint mkdirs (ps : list string) (m : gmap string node)
  : Errno * string + gmap string node :=
  match ps with
  | [] => inr m
  | p :: ps' =>
      match m !! p with
      | Some Dir => mkdirs ps' m
      | Some (File _) => inl (ENOTDIR, p)
      | None => mkdirs ps' (<[p := Dir]> m)
      end
  end.

(** [os.MkdirAll(p, perm)]. *)
Definition os_MkdirAll (p : string) : M unit :=
  fun w =>
    let w' := log (EvFs (OpMkdirAll p)) w in
    match fs_fault E w (OpMkdirAll p) with
    | Some f => (Fail (PathError "mkdir" p (fault_errno f)), w')
    | None =>
        match nodes w !! p with
        | Some Dir => (Ok tt, w')
        | Some (File _) => (Fail (PathError "mkdir" p ENOTDIR), w')
        | None =>
            if String.eqb p "" then (Fail (PathError "mkdir" p ENOENT), w')
            else
              match mkdirs (walk "" p) (nodes w) with
              | inr m => (Ok tt, set_nodes m w')
              | inl (no, q) => (Fail (PathError "mkdir" q no), w')
              end
        end
    end.

(** [os.Create(p)]: creates or truncates; the handle is the path. *)
Definition os_Create (p : string) : M string :=
  fun w =>
    let w' := log (EvFs (OpCreate p)) w in
    match fs_fault E w (OpCreate p) with
    | Some f => (Fail (PathError "open" p (fault_errno f)), w')
    | None =>
        match nodes w !! p with
        | Some Dir => (Fail (PathError "open" p EISDIR), w')
        | _ =>
            match nodes w !! filepath_Dir p with
            | Some Dir => (Ok p, set_nodes (<[p := File ""]> (nodes w)) w')
            | Some (File _) => (Fail (PathError "open" p ENOTDIR), w')
            | None => (Fail (PathError "open" p ENOENT), w')
            end
        end
    end.

(** [f.Write(b)]: the handle was opened truncated and is only written to
    sequentially, so a write appends. *)
Definition File_Write (f data : string) : M nat :=
  fun w =>
    let w' := log (EvFs (OpWrite f data)) w in
    match fs_fault E w (OpWrite f data) with
    | Some x => (Fail (PathError "write" f (fault_errno x)), w')
    | None =>
        match nodes w !! f with
        | Some (File cur) =>
            (Ok (String.length data),
             set_nodes (<[f := File (cur +:+ data)]> (nodes w)) w')
        | _ => (Fail (PathError "write" f EBADF), w')
        end
    end.

(** [f.Close()]. *)
Definition File_Close (f : string) : M unit :=
  fun w => (Ok tt, log (EvFs (OpClose f)) w).

(** [resolver.Get(ctx, ref)] of [imagetools]: one registry round trip. *)
Definition resolver_Get (opt : Opt E) (ctx : Context E) (ref : string)
  : M (string * Descriptor) :=
  fun w => let r := registry E opt ctx w ref in (r, log (EvGet ref r) w).

(** [xdg.CacheFile(relPath)]: the path under the cache home, after making
    sure its directory exists. *)
Definition xdg_CacheFile (relPath : string) : M string :=
  fun w =>
    let p := filepath_Join (xdg_CacheHome E) relPath in
    let dir := filepath_Dir p in
    match os_Stat dir w with
    | (Ok None, w1) => (Ok p, w1)
    | (_, w1) =>
        match os_MkdirAll dir w1 with
        | (Ok _, w2) => (Ok p, w2)
        | (_, w2) =>
            (Fail (LibError "xdg"
               ("could not create any of the following paths: " +:+ dir)), w2)
        end
    end.

(** ** The loader *)

Record ociRemoteLoader := {
  cache : string;
  dockerCli : Cli E;
  offline : bool
}.

Definition NewOCIRemoteLoader (cli : Cli E) (off : bool) : M ociRemoteLoader :=
  fun w =>
    match xdg_CacheFile (filepath_Join "docker-compose" "oci") w with
    | (Ok c, w') =>
        (Ok {| cache := filepath_Dir c; dockerCli := cli; offline := off |}, w')
    | (Fail err, w') =>
        (Fail (Errorf ("initializing git cache: " +:+ error_Error err)), w')
    | (Panic s, w') => (Panic s, w')
    end.

Definition prefix : string := "oci://".

(** [strings.HasPrefix(path, prefix)]. *)
Definition Accept (g : ociRemoteLoader) (path : string) : bool :=
  String.prefix prefix path.

(** [s[n:]]: out of range when [n] exceeds the length. *)
Fixpoint slice_from (n : nat) (s : string) : option string :=
  match n, s with
  | O, _ => Some s
  | S _, EmptyString => None
  | S n', String _ s' => slice_from n' s'
  end.

Definition separator : string := String "010" ("---" +:+ String "010" "").

Definition compose_media_type : string := "application/vnd.docker.compose.project".

Local Open Scope go_scope.

(** The [for i, layer := range descriptor.Layers] loop, from index [i]. *)
Fixpoint write_layers (ref : Named E) (resolver : Opt E) (ctx : Context E)
    (f : string) (i : nat) (layers : list Descriptor) : M unit :=
  match layers with
  | [] => ret tt
  | layer :: rest =>
      digested <- lift (WithDigest E ref (Digest_ layer)) ;;
      got <- resolver_Get resolver ctx (Named_String E digested) ;;
      let content := fst got in
      (if Nat.ltb 0 i then File_Write f separator ;;; ret tt else ret tt) ;;;
      File_Write f content ;;;
      write_layers ref resolver ctx f (S i) rest
  end.

(** Lines 83-97: parse the reference and fetch the manifest.
    [imagetools.New(opt)] only wraps the options, so the resolver is
    identified with them. *)
Definition resolve (g : ociRemoteLoader) (ctx : Context E) (path : string)
  : M (Named E * Opt E * string * Descriptor) :=
  match slice_from (String.length prefix) path with
  | None => fun w => (Panic "slice bounds out of range", w)
  | Some rest =>
      ref <- lift (ParseDockerRef E rest) ;;
      opt <- lift (GetImageConfig E (dockerCli g)) ;;
      got <- resolver_Get opt ctx (Named_String E ref) ;;
      ret (ref, opt, fst got, snd got)
  end.

(** Lines 103-143: the body of the cache-miss branch. *)
Definition populate (ref : Named E) (resolver : Opt E) (ctx : Context E)
    (content local composeFile : string) : M unit :=
  os_MkdirAll local ;;;
  f <- os_Create composeFile ;;
  defer (File_Close f)
    (descriptor <- lift (Unmarshal E content) ;;
     if negb (String.eqb (MediaType (Config descriptor)) compose_media_type)
     then lift (Fail (Errorf
            (Named_String E ref +:+ " is not a compose project OCI artifact, but "
               +:+ MediaType (Config descriptor))))
     else write_layers ref resolver ctx f 0 (Layers descriptor)).

Definition Load (g : ociRemoteLoader) (ctx : Context E) (path : string) : M string :=
  if offline g then ret ""
  else
    r <- resolve g ctx path ;;
    let '(ref, resolver, content, descriptor) := r in
    let local := filepath_Join (cache g) (Hex (Digest_ descriptor)) in
    let composeFile := filepath_Join local "compose.yaml" in
    err <- os_Stat local ;;
    if os_IsNotExist err
    then populate ref resolver ctx content local composeFile ;;; ret composeFile
    else ret composeFile.

End WithExternals.

Arguments cache {E} _.
Arguments dockerCli {E} _.
Arguments offline {E} _.
Arguments Accept {E} _ _.

(** The names [Load] gives to the entry of a manifest: [local] and
    [composeFile]. *)
Definition cache_dir {E} (g : ociRemoteLoader E) (descriptor : Descriptor) : string :=
  filepath_Join (cache g) (Hex (Digest_ descriptor)).

Definition compose_file {E} (g : ociRemoteLoader E) (descriptor : Descriptor) : string :=
  filepath_Join (cache_dir g descriptor) "compose.yaml".

(** ** Reading a trace *)

(** The number of [resolver.Get] calls in a trace. *)
Fixpoint resolver_calls (t : list Event) : nat :=
  match t with
  | [] => 0
  | EvGet _ _ :: t' => S (resolver_calls t')
  | EvFs _ :: t' => resolver_calls t'
  end.

(** The successful fetches of a trace, oldest first: reference asked for
    and content received. *)
Fixpoint fetched (t : list Event) : list (string * string) :=
  match t with
  | [] => []
  | EvGet r (Ok got) :: t' => fetched t' ++ [(r, fst got)]
  | _ :: t' => fetched t'
  end.

(** Every block preceded by the separator: what the loop appends from an
    index [i > 0] on. *)
Fixpoint sep_each (bs : list string) : string :=
  match bs with
  | [] => ""
  | b :: bs' => separator +:+ b +:+ sep_each bs'
  end.

(** What the loop appends to the file when it starts at index [i]. *)
Definition appended (i : nat) (bs : list string) : string :=
  match i, bs with
  | O, [] => ""
  | O, b :: bs' => b +:+ sep_each bs'
  | S _, _ => sep_each bs
  end.

(** Between [w] and [w'] nothing but the content of file [f] changed. *)
Definition only_file_changed (f : string) (w w' : World) : Prop :=
  (forall q, q <> f -> nodes w' !! q = nodes w !! q) /\
  (forall cur, nodes w !! f = Some (File cur) ->
               exists cur', nodes w' !! f = Some (File cur')).

(** A computation that, whatever its outcome, touches file [f] only. *)
Definition touches_only {A} (f : string) (m : M A) : Prop :=
  forall w r w', m w = (r, w') -> only_file_changed f w w'.

(** [rb] is what was fetched for [layer]: the reference is the
    repository of [ref] qualified by the layer's digest. *)
Definition layer_fetch (E : Externals) (ref : Named E) (layer : Descriptor)
    (rb : string * string) : Prop :=
  exists d, WithDigest E ref (Digest_ layer) = Ok d /\ fst rb = Named_String E d.

(** The registry serves [content] for [layer], whenever it is asked. *)
Definition layer_served (E : Externals) (ref : Named E) (opt : Opt E) (ctx : Context E)
    (layer : Descriptor) (content : string) : Prop :=
  exists d, WithDigest E ref (Digest_ layer) = Ok d /\
    forall w, exists dsc, registry E opt ctx w (Named_String E d) = Ok (content, dsc).

Fixpoint total_length (bs : list string) : nat :=
  match bs with
  | [] => 0
  | b :: bs' => String.length b + total_length bs'
  end.

End Remote.

(** * A registry double and the worlds the examples run in *)

Module Fixture.
Import Remote.

Definition nl : string := String "010" "".

Definition layer_a : string :=
  "services:" +:+ nl +:+ "  a:" +:+ nl +:+ "    image: x" +:+ nl.
Definition layer_b : string :=
  "services:" +:+ nl +:+ "  b:" +:+ nl +:+ "    image: y" +:+ nl.

Definition sha (hex : string) : Digest := {| Algorithm := "sha256"; Hex := hex |}.

Definition blob (mt hex : string) (content : string) : string * Descriptor :=
  (content, {| MediaType := mt; Digest_ := sha hex; Size := Z.of_nat (String.length content) |}).

Definition yaml_layer (hex content : string) : Descriptor :=
  snd (blob "application/vnd.docker.compose.file+yaml" hex content).

Definition app_manifest (config_mt : string) : Manifest :=
  {| Config := snd (blob config_mt "c0ffee" "{}");
     Layers := [yaml_layer "aaaa" layer_a; yaml_layer "bbbb" layer_b] |}.

Definition one_layer_manifest : Manifest :=
  {| Config := snd (blob compose_media_type "c0ffee" "{}");
     Layers := [yaml_layer "aaaa" layer_a] |}.

(** Manifest bytes stand for the JSON document; the decoder double maps
    them back. *)
Definition manifest_blob (bytes hex : string) : string * Descriptor :=
  (bytes, {| MediaType := "application/vnd.oci.image.manifest.v1+json";
             Digest_ := sha hex; Size := Z.of_nat (String.length bytes) |}).

Fixpoint assoc {A} (k : string) (l : list (string * A)) : option A :=
  match l with
  | [] => None
  | (k', v) :: l' => if String.eqb k k' then Some v else assoc k l'
  end.

Fixpoint has_space (s : string) : bool :=
  match s with
  | EmptyString => false
  | String c s' => Ascii.eqb c " "%char || has_space s'
  end.

Definition parse (s : string) : outcome string :=
  if String.eqb s "" || has_space s
  then Fail (LibError "reference" "invalid reference format")
  else Ok s.

Definition json_table : list (string * Manifest) :=
  [("manifest app:v1", app_manifest compose_media_type);
   ("manifest app:single", one_layer_manifest);
   ("manifest app:helm", app_manifest "application/vnd.cncf.helm.config.v1+json")].

Definition full_registry : list (string * (string * Descriptor)) :=
  [("registry.example/app:v1", manifest_blob "manifest app:v1" "1111");
   ("registry.example/app@sha256:1111", manifest_blob "manifest app:v1" "1111");
   ("registry.example/app:single", manifest_blob "manifest app:single" "2222");
   ("registry.example/app:helm", manifest_blob "manifest app:helm" "3333");
   ("registry.example/app:v1@sha256:aaaa", blob "application/vnd.docker.compose.file+yaml" "aaaa" layer_a);
   ("registry.example/app:v1@sha256:bbbb", blob "application/vnd.docker.compose.file+yaml" "bbbb" layer_b);
   ("registry.example/app@sha256:aaaa", blob "application/vnd.docker.compose.file+yaml" "aaaa" layer_a);
   ("registry.example/app@sha256:bbbb", blob "application/vnd.docker.compose.file+yaml" "bbbb" layer_b);
   ("registry.example/app:single@sha256:aaaa", blob "application/vnd.docker.compose.file+yaml" "aaaa" layer_a)].

(** The same registry with the second layer blob missing. *)
Definition broken_registry : list (string * (string * Descriptor)) :=
  [("registry.example/app:v1", manifest_blob "manifest app:v1" "1111");
   ("registry.example/app:v1@sha256:aaaa", blob "application/vnd.docker.compose.file+yaml" "aaaa" layer_a)].

Definition no_fault : World -> FsOp -> option Fault := fun _ _ => None.

(** Every [stat] is refused. *)
Definition stat_denied : World -> FsOp -> option Fault :=
  fun _ op => match op with OpStat _ => Some FaultAccess | _ => None end.

Fixpoint before_at (s : string) : string :=
  match s with
  | EmptyString => EmptyString
  | String c s' => if Ascii.eqb c "@"%char then EmptyString else String c (before_at s')
  end.

(** The new digest is added to the name and tag, replacing an old one. *)
Definition with_digest (n : string) (d : Digest) : outcome string :=
  Ok (before_at n +:+ "@" +:+ Digest_String d).

Definition externals (tbl : list (string * (string * Descriptor)))
    (fault : World -> FsOp -> option Fault) : Externals :=
  {| Cli := unit; Opt := unit; Context := unit; Named := string;
     xdg_CacheHome := "/home/user/.cache";
     ParseDockerRef := parse;
     Named_String := fun n => n;
     WithDigest := with_digest;
     GetImageConfig := fun _ => Ok tt;
     registry := fun _ _ _ ref =>
       match assoc ref tbl with
       | Some r => Ok r
       | None => Fail (LibError "imagetools" (ref +:+ ": not found"))
       end;
     Unmarshal := fun s =>
       match assoc s json_table with
       | Some m => Ok m
       | None => Fail (LibError "json" "invalid character")
       end;
     fs_fault := fault |}.

Definition E0 : Externals := externals full_registry no_fault.
Definition E_denied : Externals := externals full_registry stat_denied.
Definition E_broken : Externals := externals broken_registry no_fault.

Definition app_v1 : string := "oci://registry.example/app:v1".
Definition app_single : string := "oci://registry.example/app:single".
Definition app_helm : string := "oci://registry.example/app:helm".
Definition app_digest : string := "oci://registry.example/app@sha256:1111".

Definition manifest_v1 : string * Descriptor := manifest_blob "manifest app:v1" "1111".
Definition manifest_single : string * Descriptor := manifest_blob "manifest app:single" "2222".
Definition manifest_helm : string * Descriptor := manifest_blob "manifest app:helm" "3333".

Definition w0 : World := {| nodes := {[ "/" := Dir ]}; trace := [] |}.

Definition loader (E : Externals) (cli : Cli E) (off : bool) : ociRemoteLoader E :=
  {| cache := "/home/user/.cache/docker-compose"; dockerCli := cli; offline := off |}.

Definition g0 : ociRemoteLoader E0 := loader E0 tt false.

(** The world after [app_v1] was loaded once. *)
Definition w_cached : World := snd (Load E0 g0 tt app_v1 w0).

(** The world right after a manifest fetch from [w]. *)
Definition fetched_manifest (ref : string) (m : string * Descriptor) (w : World) : World :=
  log (EvGet ref (Ok m)) w.

Definition dir_v1 : string := "/home/user/.cache/docker-compose/1111".
Definition file_v1 : string := "/home/user/.cache/docker-compose/1111/compose.yaml".

Definition not_exist (p : string) : option error := Some (PathError "stat" p ENOENT).

(** The stages of a cache miss on [app_v1], from [w0]. *)
Definition w_fetched : World := fetched_manifest "registry.example/app:v1" manifest_v1 w0.
Definition w_statted : World := log (EvFs (OpStat dir_v1)) w_fetched.
Definition w_mkdir (E : Externals) : World := snd (os_MkdirAll E dir_v1 w_statted).
Definition w_created (E : Externals) : World := snd (os_Create E file_v1 (w_mkdir E)).

(** The world after the loader was constructed. *)
Definition w_new : World := snd (NewOCIRemoteLoader E0 tt false w0).

Definition gb : ociRemoteLoader E_broken := loader E_broken tt false.

Definition helm_error : error :=
  Errorf ("registry.example/app:helm is not a compose project OCI artifact, but "
            +:+ "application/vnd.cncf.helm.config.v1+json").

Definition lost_layer_error : error :=
  LibError "imagetools" "registry.example/app:v1@sha256:bbbb: not found".

(** The world after a load that lost its second layer. *)
Definition w_partial : World := snd (Load E_broken gb tt app_v1 w0).

Definition dir_helm : string := "/home/user/.cache/docker-compose/3333".
Definition file_helm : string := "/home/user/.cache/docker-compose/3333/compose.yaml".

(** The world after the load of an artifact that is no compose project. *)
Definition w_helm : World := snd (Load E0 g0 tt app_helm w0).

(** The world after [app_digest] was loaded once. *)
Definition w_digest : World := snd (Load E0 g0 tt app_digest w0).


End Fixture.

(** * Package remote, continued: the activation switch *)

Module RemoteEnabled.
Import Remote.

(** [os.Getenv]: the value of a variable of the process environment,
    empty when it is not set. *)
Definition os_Getenv (environ : gmap string string) (key : string) : string :=
  default "" (environ !! key).

Definition true_spellings : list string := ["1"; "t"; "T"; "TRUE"; "true"; "True"].
Definition false_spellings : list string := ["0"; "f"; "F"; "FALSE"; "false"; "False"].

(** [strconv.ParseBool]; [quote] is [strconv.Quote], which the message
    of its syntax error applies to the input. *)
Definition strconv_ParseBool (quote : string -> string) (str : string) : outcome bool :=
  if existsb (String.eqb str) true_spellings then Ok true
  else if existsb (String.eqb str) false_spellings then Ok false
  else Fail (LibError "strconv"
               ("strconv.ParseBool: parsing " +:+ quote str +:+ ": invalid syntax")).

Definition oci_remote_variable : string := "COMPOSE_EXPERIMENTAL_OCI_REMOTE".

Definition OCIRemoteLoaderEnabled (quote : string -> string)
    (environ : gmap string string) : outcome bool :=
  let v := os_Getenv environ oci_remote_variable in
  if negb (String.eqb v "")
  then
    match strconv_ParseBool quote v with
    | Ok enabled => Ok enabled
    | Fail err =>
        Fail (Errorf
          ("COMPOSE_EXPERIMENTAL_OCI_REMOTE environment variable expects boolean value: "
             +:+ error_Error err))
    | Panic s => Panic s
    end
  else Ok false.


(** The number of calls of each kind in a trace. *)
Fixpoint write_calls (t : list Event) : nat :=
  match t with
  | [] => 0
  | EvFs (OpWrite _ _) :: t' => S (write_calls t')
  | _ :: t' => write_calls t'
  end.

End RemoteEnabled.

(** * cmd/compose: project options and the remote loaders

    The part of package [compose] (cmd/compose/compose.go) that decides
    which project is meant and which resource loaders it is loaded with.
    compose-go, the Git loader and the constants of package [api] are
    collaborators: they are fields of [Libraries]. *)

Module Compose.
Import Remote RemoteEnabled.

Definition PluginName : string := "compose".
Definition ComposeProjectName : string := "COMPOSE_PROJECT_NAME".
Definition ComposeCompatibility : string := "COMPOSE_COMPATIBILITY".

(** [RunningAsStandalone], over [os.Args]; the second argument is only
    looked at when there are two. *)
Definition RunningAsStandalone (MetadataSubcommandName : string) (Args : list string)
  : bool :=
  Nat.ltb (length Args) 2
  || (negb (String.eqb (nth 1 Args "") MetadataSubcommandName)
      && negb (String.eqb (nth 1 Args "") PluginName)).

Record ProjectOptions := {
  ProjectName : string;
  Profiles : list string;
  ConfigPaths : list string;
  WorkDir : string;
  ProjectDir : string;
  EnvFiles : list string;
  Compatibility : bool;
  Progress : string;
  Offline : bool
}.

(** [os.Setenv]: the system call refuses an empty key, a key with [=] or
    NUL in it, and a value with NUL in it. *)
Fixpoint has_char (c : ascii) (s : string) : bool :=
  match s with
  | EmptyString => false
  | String d s' => Ascii.eqb d c || has_char c s'
  end.

Definition os_Setenv (key value : string) (environ : gmap string string)
  : outcome unit * gmap string string :=
  if String.eqb key "" || has_char "="%char key || has_char "000"%char key
     || has_char "000"%char value
  then (Fail (LibError "os" "setenv: invalid argument"), environ)
  else (Ok tt, <[key := value]> environ).

(** The [for k, v := range envFromFile] loop of [setEnvWithDotEnv], over
    the entries in the order the map yields them. *)
Fixpoint set_missing (entries : list (string * string)) (environ : gmap string string)
  : outcome unit * gmap string string :=
  match entries with
  | [] => (Ok tt, environ)
  | (k, v) :: rest =>
      match environ !! k with
      | Some _ => set_missing rest environ
      | None =>
          match os_Setenv k v environ with
          | (Ok _, environ') => set_missing rest environ'
          | (Fail err, environ') => (Fail err, environ')
          | (Panic s, environ') => (Panic s, environ')
          end
      end
  end.

(** The process state [ToProject] works on: the outside world and the
    package variable [api.Separator]. *)
Record Process := {
  world : World;
  api_Separator : string
}.

Section WithLibraries.
Context {E : Externals}.

(** [types.ServiceConfig] and [types.Project], as far as this file looks
    into them; [ServiceSpec] and [ProjectSpec] are the rest of them. *)
Context {ServiceSpec ProjectSpec : Type}.

Record ServiceConfig := {
  service_Name : string;
  CustomLabels : gmap string string;
  service_spec : ServiceSpec
}.

Record Project := {
  Name : string;
  WorkingDir : string;
  ComposeFiles : list string;
  Services : list ServiceConfig;
  project_spec : ProjectSpec
}.

(** The Git loader, a sibling of the OCI one in package [remote]. *)
Context {GitLoader : Type}.

(** [loader.ResourceLoader], as this file makes them. *)
Inductive ResourceLoader :=
| LoaderGit (git : GitLoader)
| LoaderOCI (oci : ociRemoteLoader E).

(** [cli.ProjectOptionsFn]: the options of compose-go this file passes,
    by name and argument. *)
Inductive ProjectOptionsFn :=
| WithResourceLoader (r : ResourceLoader)
| WithWorkingDirectory (dir : string)
| WithOsEnv
| WithEnvFiles (files : list string)
| WithDotEnv
| WithConfigFileEnv
| WithDefaultConfigPath
| WithDefaultProfiles (profiles : list string)
| WithName (name : string)
| WithDiscardEnvFile
| WithResolvedPaths (resolved : bool)
| WithContext (ctx : Context E).

Record Libraries := {
  CliOptions : Type;  (* cli.ProjectOptions *)
  (* remote.GitRemoteLoaderEnabled, remote.NewGitRemoteLoader *)
  GitRemoteLoaderEnabled : gmap string string -> outcome bool;
  NewGitRemoteLoader : bool -> M GitLoader;
  (* strconv.Quote *)
  strconv_Quote : string -> string;
  (* cli.NewProjectOptions, in the environment and the world it reads *)
  NewProjectOptions :
    gmap string string -> World -> list string -> list ProjectOptionsFn -> outcome CliOptions;
  (* options.Environment, options.EnvFiles, options.GetWorkingDir *)
  Environment : CliOptions -> gmap string string;
  options_EnvFiles : CliOptions -> list string;
  GetWorkingDir : CliOptions -> outcome string;
  (* cli.ProjectFromOptions: it reads the files and runs the loaders *)
  ProjectFromOptions : CliOptions -> M Project;
  (* project.EnableServices, WithoutUnnecessaryResources, ForServices *)
  EnableServices : Project -> list string -> outcome Project;
  WithoutUnnecessaryResources : Project -> Project;
  ForServices : Project -> list string -> Project * option error;
  (* dotenv.GetEnvFromFile, its entries in the order a range yields them *)
  GetEnvFromFile :
    gmap string string -> string -> list string -> outcome (list (string * string));
  (* utils.StringToBool, compose.WrapComposeError *)
  StringToBool : string -> bool;
  WrapComposeError : error -> error;
  (* the label names and the version of package api *)
  ProjectLabel : string;
  ServiceLabel : string;
  VersionLabel : string;
  WorkingDirLabel : string;
  ConfigFilesLabel : string;
  OneoffLabel : string;
  EnvironmentFileLabel : string;
  ComposeVersion : string
}.

Context (L : Libraries).

Definition configureRemoteLoaders (o : ProjectOptions) (dockerCli : Cli E)
    (po : list ProjectOptionsFn) (environ : gmap string string)
  : M (list ProjectOptionsFn) :=
  bind (lift (GitRemoteLoaderEnabled L environ)) (fun enabled =>
  bind (if enabled
        then bind (NewGitRemoteLoader L (Offline o)) (fun git =>
             ret (po ++ [WithResourceLoader (LoaderGit git)])%list)
        else ret po) (fun po =>
  bind (lift (OCIRemoteLoaderEnabled (strconv_Quote L) environ)) (fun enabled =>
  if enabled
  then bind (NewOCIRemoteLoader E dockerCli (Offline o)) (fun git =>
       ret (po ++ [WithResourceLoader (LoaderOCI git)])%list)
  else ret po))).

Definition toProjectOptions (o : ProjectOptions) (po : list ProjectOptionsFn)
    (environ : gmap string string) (w : World) : outcome (CliOptions L) :=
  NewProjectOptions L environ w (ConfigPaths o)
    (po ++ [WithWorkingDirectory (ProjectDir o);
            WithOsEnv;
            WithEnvFiles (EnvFiles o);
            WithDotEnv;
            WithConfigFileEnv;
            WithDefaultConfigPath;
            WithDefaultProfiles (Profiles o);
            WithName (ProjectName o)])%list.

(** The body of the loop over [project.Services]: the labels are made
    anew for every service. *)
Definition stamp (o : ProjectOptions) (project : Project) (s : ServiceConfig)
  : ServiceConfig :=
  let labels : gmap string string :=
    <[OneoffLabel L := "False"]>
    (<[ConfigFilesLabel L := String.concat "," (ComposeFiles project)]>
    (<[WorkingDirLabel L := WorkingDir project]>
    (<[VersionLabel L := ComposeVersion L]>
    (<[ServiceLabel L := service_Name s]>
    (<[ProjectLabel L := Name project]> ∅))))) in
  let labels :=
    if negb (Nat.eqb (length (EnvFiles o)) 0)
    then <[EnvironmentFileLabel L := String.concat "," (EnvFiles o)]> labels
    else labels in
  {| service_Name := service_Name s; CustomLabels := labels;
     service_spec := service_spec s |}.

Definition stamp_services (o : ProjectOptions) (project : Project) : Project :=
  {| Name := Name project; WorkingDir := WorkingDir project;
     ComposeFiles := ComposeFiles project;
     Services := map (stamp o project) (Services project);
     project_spec := project_spec project |}.

(** [ToProject] from [toProjectOptions] on (lines 211-247), with the
    options the loaders were added to.  The result is the pair the Go
    function returns: [Fail] is [(nil, err)], [Ok (p, err)] is
    [(p, err)]. *)
Definition loadProject (o : ProjectOptions) (services : list string)
    (po : list ProjectOptionsFn) (environ : gmap string string) (s : Process)
  : outcome (Project * option error) * Process :=
  match toProjectOptions o po environ (world s) with
  | Fail err => (Fail (WrapComposeError L err), s)
  | Panic msg => (Panic msg, s)
  | Ok options =>
      let s1 :=
        if Compatibility o
           || StringToBool L (default "" (Environment L options !! ComposeCompatibility))
        then {| world := world s; api_Separator := "_" |}
        else s in
      match ProjectFromOptions L options (world s1) with
      | (Fail err, w2) =>
          (Fail (WrapComposeError L err),
           {| world := w2; api_Separator := api_Separator s1 |})
      | (Panic msg, w2) =>
          (Panic msg, {| world := w2; api_Separator := api_Separator s1 |})
      | (Ok project, w2) =>
          let s2 := {| world := w2; api_Separator := api_Separator s1 |} in
          if String.eqb (Name project) ""
          then (Fail (Errorf
                 "project name can't be empty. Use `--project-name` to set a valid name"),
                s2)
          else
            match EnableServices L project services with
            | Fail err => (Fail err, s2)
            | Panic msg => (Panic msg, s2)
            | Ok project =>
                let project := stamp_services o project in
                let project := WithoutUnnecessaryResources L project in
                (Ok (ForServices L project services), s2)
            end
      end
  end.

Definition ToProject (o : ProjectOptions) (dockerCli : Cli E) (services : list string)
    (po : list ProjectOptionsFn) (environ : gmap string string) (s : Process)
  : outcome (Project * option error) * Process :=
  if negb (Offline o)
  then
    match configureRemoteLoaders o dockerCli po environ (world s) with
    | (Ok po, w1) =>
        loadProject o services po environ
          {| world := w1; api_Separator := api_Separator s |}
    | (Fail err, w1) => (Fail err, {| world := w1; api_Separator := api_Separator s |})
    | (Panic msg, w1) => (Panic msg, {| world := w1; api_Separator := api_Separator s |})
    end
  else loadProject o services po environ s.


Definition toProjectName (o : ProjectOptions) (dockerCli : Cli E)
    (environ : gmap string string) (s : Process) : outcome string * Process :=
  if negb (String.eqb (ProjectName o) "") then (Ok (ProjectName o), s)
  else
    let envProjectName := os_Getenv environ ComposeProjectName in
    if negb (String.eqb envProjectName "") then (Ok envProjectName, s)
    else
      match ToProject o dockerCli [] [] environ s with
      | (Ok (project, None), s') => (Ok (Name project), s')
      | (Ok (_, Some err), s') | (Fail err, s') => (Fail err, s')
      | (Panic msg, s') => (Panic msg, s')
      end.

(** [setEnvWithDotEnv], on the process environment. *)
Definition setEnvWithDotEnv (prjOpts : ProjectOptions) (w : World)
    (environ : gmap string string) : outcome unit * gmap string string :=
  match toProjectOptions prjOpts [] environ w with
  | Fail err => (Fail (WrapComposeError L err), environ)
  | Panic msg => (Panic msg, environ)
  | Ok options =>
      match GetWorkingDir L options with
      | Fail err => (Fail err, environ)
      | Panic msg => (Panic msg, environ)
      | Ok workingDir =>
          match GetEnvFromFile L environ workingDir (options_EnvFiles L options) with
          | Fail err => (Fail err, environ)
          | Panic msg => (Panic msg, environ)
          | Ok envFromFile => set_missing envFromFile environ
          end
      end
  end.

End WithLibraries.

End Compose.

(** * More doubles: an artifact without layers, and the libraries *)

Module Samples.
Import Remote RemoteEnabled Compose Fixture.

Definition empty_manifest : Manifest :=
  {| Config := snd (blob compose_media_type "c0ffee" "{}"); Layers := [] |}.

Definition manifest_empty : string * Descriptor := manifest_blob "manifest app:empty" "4444".

Definition app_empty : string := "oci://registry.example/app:empty".
Definition dir_empty : string := "/home/user/.cache/docker-compose/4444".
Definition file_empty : string := "/home/user/.cache/docker-compose/4444/compose.yaml".

(** The registry of [E0] with one more artifact, a compose project
    without layers. *)
Definition E_empty : Externals :=
  {| Cli := unit; Opt := unit; Context := unit; Named := string;
     xdg_CacheHome := "/home/user/.cache";
     ParseDockerRef := parse;
     Named_String := fun n => n;
     WithDigest := with_digest;
     GetImageConfig := fun _ => Ok tt;
     registry := fun _ _ _ ref =>
       if String.eqb ref "registry.example/app:empty" then Ok manifest_empty
       else registry E0 tt tt w0 ref;
     Unmarshal := fun s =>
       if String.eqb s "manifest app:empty" then Ok empty_manifest
       else Unmarshal E0 s;
     fs_fault := no_fault |}.

Definition g_empty : ociRemoteLoader E_empty := loader E_empty tt false.

Definition w_empty_fetched : World :=
  fetched_manifest "registry.example/app:empty" manifest_empty w0.
Definition w_empty_statted : World := log (EvFs (OpStat dir_empty)) w_empty_fetched.
Definition w_empty_mkdir : World := snd (os_MkdirAll E_empty dir_empty w_empty_statted).
Definition w_empty_created : World := snd (os_Create E_empty file_empty w_empty_mkdir).

Definition app_none : string := "oci://registry.example/none:v1".
Definition none_error : error := LibError "imagetools" "registry.example/none:v1: not found".

(** compose-go and the Git loader, reduced to what the examples need:
    the options are kept as they come, the project is named by the last
    [WithName] and has two services. *)
Definition SampleFn : Type := @ProjectOptionsFn E0 unit.

Fixpoint name_of (fns : list SampleFn) : string :=
  match fns with
  | [] => ""
  | WithName n :: rest => match name_of rest with "" => n | later => later end
  | _ :: rest => name_of rest
  end.

Definition sample_service (n : string) : @ServiceConfig unit :=
  {| service_Name := n; CustomLabels := {[ "custom" := "label" ]}; service_spec := tt |}.

Definition sample_project (paths : list string) (fns : list SampleFn) : @Project unit unit :=
  {| Name := name_of fns; WorkingDir := "/work"; ComposeFiles := paths;
     Services := [sample_service "web"; sample_service "db"]; project_spec := tt |}.

Definition L0 : @Libraries E0 unit unit unit :=
  {| CliOptions := (list string * list SampleFn)%type;
     GitRemoteLoaderEnabled := fun _ => Ok false;
     NewGitRemoteLoader := fun _ => ret tt;
     strconv_Quote := fun s => s;
     NewProjectOptions := fun _ _ paths fns => Ok (paths, fns);
     Environment := fun _ => ∅;
     options_EnvFiles := fun _ => [];
     GetWorkingDir := fun _ => Ok "/work";
     ProjectFromOptions := fun opts => ret (sample_project (fst opts) (snd opts));
     EnableServices := fun p _ => Ok p;
     WithoutUnnecessaryResources := fun p => p;
     ForServices := fun p _ => (p, None);
     GetEnvFromFile := fun _ _ _ => Ok [("A", "1"); ("B", "2")];
     StringToBool := fun s => String.eqb s "true";
     WrapComposeError := fun e => e;
     ProjectLabel := "com.docker.compose.project";
     ServiceLabel := "com.docker.compose.service";
     VersionLabel := "com.docker.compose.version";
     WorkingDirLabel := "com.docker.compose.project.working_dir";
     ConfigFilesLabel := "com.docker.compose.project.config_files";
     OneoffLabel := "com.docker.compose.oneoff";
     EnvironmentFileLabel := "com.docker.compose.project.environment_file";
     ComposeVersion := "2.20.0" |}.

Definition options (name : string) (paths : list string) (off : bool) : ProjectOptions :=
  {| ProjectName := name; Profiles := []; ConfigPaths := paths; WorkDir := "";
     ProjectDir := ""; EnvFiles := []; Compatibility := true; Progress := "auto";
     Offline := off |}.

Definition env_oci : gmap string string :=
  {[ oci_remote_variable := "true"; ComposeProjectName := "fromenv" ]}.

Definition env_a : gmap string string := {[ "A" := "0" ]}.

Definition process0 : Process := {| world := w0; api_Separator := "-" |}.

(** The option that carries the OCI loader of the examples. *)
Definition oci_option : SampleFn := WithResourceLoader (LoaderOCI g0).

End Samples.

(** * cmd/compose: the hook that runs before every command

    [PersistentPreRunE] of the command [RootCommand] builds.  It works on
    the variables the flags are bound to and on a few package variables:
    they are the fields of [Root].  What it calls outside this file is a
    field of [Hooks]; the part of the process those calls work on, and
    this hook never looks into, is [X]. *)

Module Root.
Import Remote RemoteEnabled Compose.

Definition ComposeParallelLimit : string := "COMPOSE_PARALLEL_LIMIT".

(** The double quote. *)
Definition dq : string := String "034" "".

(** [*cobra.Command], as the hook sees it: [Name()] and
    [Flags().Changed("parallel")] of the command and of its ancestors,
    innermost first, and [Flags().Changed("ansi")] of the command, each
    as it is when the hook asks for it. *)
Record Command := {
  chain : list (string * bool);
  ansi_changed : bool
}.

(** The loop that walks up to the command named [compose]. *)
Fixpoint find_compose (cmds : list (string * bool)) : option bool :=
  match cmds with
  | [] => None
  | (name, parallel_changed) :: parents =>
      if String.eqb name PluginName then Some parallel_changed
      else find_compose parents
  end.

Section WithHooks.
Context {E : Externals} {ServiceSpec ProjectSpec GitLoader : Type}.
Context (L : @Libraries E ServiceSpec ProjectSpec GitLoader).
Context {X : Type}.

Record Hooks := {
  (* cmd.Root().PersistentPreRunE, when there is one: it works on the
     environment, on what was printed, on ui.Mode and on [X] *)
  parentPrerun :
    option (list string -> gmap string string -> list string -> string -> X
            -> outcome unit * (gmap string string * list string * string * X));
  (* logrus.SetLevel(logrus.TraceLevel), formatter.SetANSIMode, ui.NoColor *)
  logrus_SetLevel_Trace : X -> X;
  formatter_SetANSIMode : string -> X -> X;
  formatter_Never : string;
  ui_NoColor : X -> X;
  (* the modes of package progress *)
  ui_ModeAuto : string;
  ui_ModeTTY : string;
  ui_ModePlain : string;
  ui_ModeQuiet : string;
  (* aec.Apply(_, aec.RedF) *)
  aec_Apply_RedF : string -> string;
  (* filepath.IsAbs, filepath.Abs, strconv.Atoi *)
  filepath_IsAbs : string -> bool;
  filepath_Abs : string -> outcome string;
  strconv_Atoi : string -> outcome Z;
  (* backend.MaxConcurrency; backend.DryRunMode with cmd.Context and
     cmd.SetContext *)
  backend_MaxConcurrency : Z -> X -> X;
  backend_DryRunMode : bool -> X -> outcome X
}.

Context (H : Hooks).

Record Root := {
  opts : ProjectOptions;
  ansi : string;
  noAnsi : bool;
  verbose : bool;
  parallel : Z;
  dryRun : bool;
  environ : gmap string string;   (* the process environment *)
  stderr : list string;           (* what was printed, newest first *)
  ui_Mode : string;
  rest : X
}.

Definition R (A : Type) : Type := Root -> outcome A * Root.

Definition rret {A} (a : A) : R A := fun st => (Ok a, st).
Definition rfail {A} (e : error) : R A := fun st => (Fail e, st).
Definition rbind {A B} (m : R A) (k : A -> R B) : R B :=
  fun st =>
    match m st with
    | (Ok a, st') => k a st'
    | (Fail e, st') => (Fail e, st')
    | (Panic s, st') => (Panic s, st')
    end.
Definition rget : R Root := fun st => (Ok st, st).
Definition rmodify (f : Root -> Root) : R unit := fun st => (Ok tt, f st).

Definition set_opts (o : ProjectOptions) (st : Root) : Root :=
  {| opts := o; ansi := ansi st; noAnsi := noAnsi st; verbose := verbose st;
     parallel := parallel st; dryRun := dryRun st; environ := environ st;
     stderr := stderr st; ui_Mode := ui_Mode st; rest := rest st |}.
Definition set_ansi (v : string) (st : Root) : Root :=
  {| opts := opts st; ansi := v; noAnsi := noAnsi st; verbose := verbose st;
     parallel := parallel st; dryRun := dryRun st; environ := environ st;
     stderr := stderr st; ui_Mode := ui_Mode st; rest := rest st |}.
Definition set_parallel (i : Z) (st : Root) : Root :=
  {| opts := opts st; ansi := ansi st; noAnsi := noAnsi st; verbose := verbose st;
     parallel := i; dryRun := dryRun st; environ := environ st;
     stderr := stderr st; ui_Mode := ui_Mode st; rest := rest st |}.
Definition set_environ (env : gmap string string) (st : Root) : Root :=
  {| opts := opts st; ansi := ansi st; noAnsi := noAnsi st; verbose := verbose st;
     parallel := parallel st; dryRun := dryRun st; environ := env;
     stderr := stderr st; ui_Mode := ui_Mode st; rest := rest st |}.
Definition print (line : string) (st : Root) : Root :=
  {| opts := opts st; ansi := ansi st; noAnsi := noAnsi st; verbose := verbose st;
     parallel := parallel st; dryRun := dryRun st; environ := environ st;
     stderr := line :: stderr st; ui_Mode := ui_Mode st; rest := rest st |}.
Definition set_ui_Mode (mode : string) (st : Root) : Root :=
  {| opts := opts st; ansi := ansi st; noAnsi := noAnsi st; verbose := verbose st;
     parallel := parallel st; dryRun := dryRun st; environ := environ st;
     stderr := stderr st; ui_Mode := mode; rest := rest st |}.
Definition set_rest (x : X) (st : Root) : Root :=
  {| opts := opts st; ansi := ansi st; noAnsi := noAnsi st; verbose := verbose st;
     parallel := parallel st; dryRun := dryRun st; environ := environ st;
     stderr := stderr st; ui_Mode := ui_Mode st; rest := x |}.

Definition set_ProjectDir (dir : string) (o : ProjectOptions) : ProjectOptions :=
  {| ProjectName := ProjectName o; Profiles := Profiles o; ConfigPaths := ConfigPaths o;
     WorkDir := WorkDir o; ProjectDir := dir; EnvFiles := EnvFiles o;
     Compatibility := Compatibility o; Progress := Progress o; Offline := Offline o |}.
Definition set_EnvFiles (files : list string) (o : ProjectOptions) : ProjectOptions :=
  {| ProjectName := ProjectName o; Profiles := Profiles o; ConfigPaths := ConfigPaths o;
     WorkDir := WorkDir o; ProjectDir := ProjectDir o; EnvFiles := files;
     Compatibility := Compatibility o; Progress := Progress o; Offline := Offline o |}.

Declare Scope root_scope.
Delimit Scope root_scope with root.
Notation "x <- m ;; k" := (rbind m (fun x => k))
  (at level 100, m at next level, right associativity) : root_scope.
Notation "m ;;; k" := (rbind m (fun _ => k))
  (at level 100, right associativity) : root_scope.
Local Open Scope root_scope.

(** [err := setEnvWithDotEnv(&opts)]. *)
Definition step_dotenv (w : World) : R unit :=
  fun st =>
    let '(r, env) := setEnvWithDotEnv L (opts st) w (environ st) in
    (r, set_environ env st).

(** The hook of the root command, when it has one. *)
Definition step_parent (args : list string) : R unit :=
  match parentPrerun H with
  | None => rret tt
  | Some hook =>
      fun st =>
        let '(r, (env, printed, mode, x)) :=
          hook args (environ st) (stderr st) (ui_Mode st) (rest st) in
        (r, {| opts := opts st; ansi := ansi st; noAnsi := noAnsi st;
               verbose := verbose st; parallel := parallel st; dryRun := dryRun st;
               environ := env; stderr := printed; ui_Mode := mode; rest := x |})
  end.

Definition step_noAnsi : R unit :=
  st <- rget ;;
  if noAnsi st
  then
    if negb (String.eqb (ansi st) "auto")
    then rfail (Errorf ("cannot specify DEPRECATED " +:+ dq +:+ "--no-ansi" +:+ dq
                          +:+ " and " +:+ dq +:+ "--ansi" +:+ dq
                          +:+ ". Please use only " +:+ dq +:+ "--ansi" +:+ dq))
    else
      rmodify (set_ansi "never") ;;;
      rmodify (print
        ("option '--no-ansi' is DEPRECATED ! Please use '--ansi' instead." +:+ String "010" ""))
  else rret tt.

Definition step_verbose : R unit :=
  st <- rget ;;
  if verbose st then rmodify (fun st => set_rest (logrus_SetLevel_Trace H (rest st)) st)
  else rret tt.

Definition step_COMPOSE_ANSI (cmd : Command) : R unit :=
  st <- rget ;;
  match environ st !! "COMPOSE_ANSI" with
  | Some v => if negb (ansi_changed cmd) then rmodify (set_ansi v) else rret tt
  | None => rret tt
  end.

Definition step_formatter : R unit :=
  rmodify (fun st => set_rest (formatter_SetANSIMode H (ansi st) (rest st)) st).

Definition step_NO_COLOR : R unit :=
  st <- rget ;;
  match environ st !! "NO_COLOR" with
  | Some noColor =>
      if negb (String.eqb noColor "")
      then rmodify (fun st =>
             set_rest (formatter_SetANSIMode H (formatter_Never H)
                         (ui_NoColor H (rest st))) st)
      else rret tt
  | None => rret tt
  end.

(** [switch ansi]. *)
Definition step_ansi_mode : R unit :=
  st <- rget ;;
  if String.eqb (ansi st) "never" then rmodify (set_ui_Mode (ui_ModePlain H))
  else if String.eqb (ansi st) "always" then rmodify (set_ui_Mode (ui_ModeTTY H))
  else rret tt.

(** [switch opts.Progress]. *)
Definition step_progress : R unit :=
  st <- rget ;;
  let progress := Progress (opts st) in
  if String.eqb progress (ui_ModeAuto H) then rmodify (set_ui_Mode (ui_ModeAuto H))
  else if String.eqb progress (ui_ModeTTY H)
  then
    if String.eqb (ansi st) "never"
    then rfail (Errorf "can't use --progress tty while ANSI support is disabled")
    else rmodify (set_ui_Mode (ui_ModeTTY H))
  else if String.eqb progress (ui_ModePlain H)
  then
    if String.eqb (ansi st) "always"
    then rfail (Errorf "can't use --progress plain while ANSI support is forced")
    else rmodify (set_ui_Mode (ui_ModePlain H))
  else if String.eqb progress (ui_ModeQuiet H) || String.eqb progress "none"
  then rmodify (set_ui_Mode (ui_ModeQuiet H))
  else rfail (Errorf ("unsupported --progress value " +:+ strconv_Quote L progress)).

Definition step_workdir : R unit :=
  st <- rget ;;
  if negb (String.eqb (WorkDir (opts st)) "")
  then
    if negb (String.eqb (ProjectDir (opts st)) "")
    then rfail (Errorf ("cannot specify DEPRECATED " +:+ dq +:+ "--workdir" +:+ dq
                          +:+ " and " +:+ dq +:+ "--project-directory" +:+ dq
                          +:+ ". Please use only " +:+ dq +:+ "--project-directory" +:+ dq
                          +:+ " instead"))
    else
      rmodify (fun st => set_opts (set_ProjectDir (WorkDir (opts st)) (opts st)) st) ;;;
      rmodify (print (aec_Apply_RedF H
        ("option '--workdir' is DEPRECATED at root level! Please use '--project-directory' instead."
           +:+ String "010" "")))
  else rret tt.

(** The loop over [opts.EnvFiles]: the slice is changed in place, so
    what was made absolute before a failure stays so. *)
Fixpoint make_absolute (files : list string) : outcome unit * list string :=
  match files with
  | [] => (Ok tt, [])
  | file :: others =>
      if negb (filepath_IsAbs H file)
      then
        match filepath_Abs H file with
        | Ok abs => let '(r, others') := make_absolute others in (r, abs :: others')
        | Fail err => (Fail err, file :: others)
        | Panic s => (Panic s, file :: others)
        end
      else let '(r, others') := make_absolute others in (r, file :: others')
  end.

Definition step_envfiles : R unit :=
  fun st =>
    let '(r, files) := make_absolute (EnvFiles (opts st)) in
    (r, set_opts (set_EnvFiles files (opts st)) st).

Definition step_parallel (cmd : Command) : R unit :=
  match find_compose (chain cmd) with
  | None =>
      rfail (Errorf ("error parsing command line, expected " +:+ strconv_Quote L PluginName))
  | Some parallel_changed =>
      st <- rget ;;
      (match environ st !! ComposeParallelLimit with
       | Some v =>
           if negb parallel_changed
           then
             match strconv_Atoi H v with
             | Ok i => rmodify (set_parallel i)
             | Fail _ =>
                 rfail (Errorf (ComposeParallelLimit +:+ " must be an integer (found: "
                                  +:+ strconv_Quote L v +:+ ")"))
             | Panic s => fun st => (Panic s, st)
             end
           else rret tt
       | None => rret tt
       end) ;;;
      st <- rget ;;
      if Z.ltb 0 (parallel st)
      then rmodify (fun st => set_rest (backend_MaxConcurrency H (parallel st) (rest st)) st)
      else rret tt
  end.

Definition step_dryRun : R unit :=
  fun st =>
    match backend_DryRunMode H (dryRun st) (rest st) with
    | Ok x => (Ok tt, set_rest x st)
    | Fail err => (Fail err, st)
    | Panic s => (Panic s, st)
    end.

Definition PersistentPreRunE (cmd : Command) (args : list string) (w : World) : R unit :=
  step_dotenv w ;;;
  step_parent args ;;;
  step_noAnsi ;;;
  step_verbose ;;;
  step_COMPOSE_ANSI cmd ;;;
  step_formatter ;;;
  step_NO_COLOR ;;;
  step_ansi_mode ;;;
  step_progress ;;;
  step_workdir ;;;
  step_envfiles ;;;
  step_parallel cmd ;;;
  step_dryRun.

(** A computation that leaves the projection [f] of the state alone,
    whatever its outcome. *)
Definition keeps {A B} (f : Root -> B) (m : R A) : Prop :=
  forall st r st', m st = (r, st') -> f st' = f st.

End WithHooks.

End Root.

(** * Doubles for the hook *)

Module RootSamples.
Import Remote RemoteEnabled Compose Fixture Samples Root.

(** The calls outside, each leaving a line in a journal; paths are
    those of Unix, the working directory is [/work], and [strconv.Atoi]
    knows one number. *)
Definition H0 : @Hooks (list string) :=
  {| parentPrerun := None;
     logrus_SetLevel_Trace := fun journal => "trace" :: journal;
     formatter_SetANSIMode := fun mode journal => ("ansi " +:+ mode) :: journal;
     formatter_Never := "never";
     ui_NoColor := fun journal => "no color" :: journal;
     ui_ModeAuto := "auto";
     ui_ModeTTY := "tty";
     ui_ModePlain := "plain";
     ui_ModeQuiet := "quiet";
     aec_Apply_RedF := fun s => s;
     filepath_IsAbs := String.prefix "/";
     filepath_Abs := fun p => Ok ("/work/" +:+ p);
     strconv_Atoi := fun s =>
       if String.eqb s "4" then Ok 4%Z else Fail (Errorf "invalid syntax");
     backend_MaxConcurrency := fun _ journal => "max concurrency" :: journal;
     backend_DryRunMode := fun _ journal => Ok journal |}.

(** [docker compose up]. *)
Definition cmd_up : Command :=
  {| chain := [("up", false); ("compose", false); ("docker", false)];
     ansi_changed := false |}.

(** [--no-ansi --progress plain --workdir /srv/app --env-file prod.env
    --env-file /etc/app.env], with [COMPOSE_PARALLEL_LIMIT=4]. *)
Definition root0 : @Root (list string) :=
  {| opts := {| ProjectName := "demo"; Profiles := []; ConfigPaths := [];
                WorkDir := "/srv/app"; ProjectDir := "";
                EnvFiles := ["prod.env"; "/etc/app.env"]; Compatibility := false;
                Progress := "plain"; Offline := false |};
     ansi := "auto"; noAnsi := true; verbose := false; parallel := (-1)%Z;
     dryRun := false;
     environ := {[ ComposeParallelLimit := "4" ]};
     stderr := []; ui_Mode := "auto"; rest := [] |}.

Definition run0 : outcome unit * @Root (list string) :=
  PersistentPreRunE L0 H0 cmd_up [] w0 root0.

(** [--no-ansi] alone, with [COMPOSE_ANSI=always]. *)
Definition root_always : @Root (list string) :=
  {| opts := options "demo" [] false;
     ansi := "auto"; noAnsi := true; verbose := false; parallel := (-1)%Z;
     dryRun := false;
     environ := {[ "COMPOSE_ANSI" := "always" ]};
     stderr := []; ui_Mode := "auto"; rest := [] |}.

Definition run_always : outcome unit * @Root (list string) :=
  PersistentPreRunE L0 H0 cmd_up [] w0 root_always.

End RootSamples.

(** * Properties *)

Import Remote Fixture.

(** ** Strings and paths *)

Lemma append_String a s t : String a s +:+ t = String a (s +:+ t).
Proof. reflexivity. Qed.

Lemma append_nil_r s : s +:+ "" = s.
Proof. induction s as [|a s IH]; [reflexivity|]. rewrite append_String. by f_equal. Qed.

Lemma append_assoc s t u : (s +:+ t) +:+ u = s +:+ (t +:+ u).
Proof.
  induction s as [|a s IH]; [reflexivity|].
  rewrite !append_String. by f_equal.
Qed.

Lemma length_append s t : String.length (s +:+ t) = String.length s + String.length t.
Proof.
  induction s as [|a s IH]; [reflexivity|].
  rewrite append_String. simpl. by rewrite IH.
Qed.


Lemma slice_from_append a : forall rest, slice_from (String.length a) (a +:+ rest) = Some rest.
Proof. induction a as [|c a IH]; intros rest; [reflexivity|]. rewrite append_String. simpl. apply IH. Qed.


Lemma prefix_split a : forall s, String.prefix a s = true -> exists rest, s = a +:+ rest.
Proof.
  induction a as [|c a IH]; intros s H.
  - by exists s.
  - destruct s as [|d s]; simpl in H; [discriminate|].
    destruct (ascii_dec c d) as [->|]; [|discriminate].
    destruct (IH _ H) as [rest ->]. by exists rest.
Qed.

Lemma cut_last_name b : cut_last b = None ->
  forall a, cut_last (a +:+ String slash b) = Some a.
Proof.
  intros Hb. induction a as [|c a IH].
  - change (cut_last (String slash b) = Some ""). simpl. by rewrite Hb.
  - rewrite append_String. simpl. by rewrite IH.
Qed.

Lemma rstrip_slash_keep c : c <> slash ->
  forall a, rstrip_slash (a +:+ String c "") = a +:+ String c "".
Proof.
  intros Hc. induction a as [|d a IH].
  - change (rstrip_slash (String c "") = String c ""). simpl.
    by destruct (Ascii.eqb_spec c slash).
  - rewrite append_String. simpl. rewrite IH. by destruct a.
Qed.

(** The directory of [x/name], for an [x] that does not end in a slash. *)
Lemma filepath_Dir_name a c b :
  c <> slash -> cut_last b = None ->
  filepath_Dir ((a +:+ String c "") +:+ String slash b) = a +:+ String c "".
Proof.
  intros Hc Hb. unfold filepath_Dir.
  rewrite (cut_last_name _ Hb), (rstrip_slash_keep _ Hc). by destruct a.
Qed.

Lemma filepath_Dir_docker_compose_oci P :
  filepath_Dir (P +:+ "docker-compose/oci") = P +:+ "docker-compose".
Proof.
  replace (P +:+ "docker-compose/oci")
    with (((P +:+ "docker-compos") +:+ String "e" "") +:+ String slash "oci")
    by (by rewrite !append_assoc).
  rewrite filepath_Dir_name; [by rewrite append_assoc|done|done].
Qed.

(** What the constructor keeps of the path [xdg.CacheFile] returns. *)
Lemma filepath_Dir_cache_file home :
  filepath_Dir (filepath_Join home (filepath_Join "docker-compose" "oci"))
  = filepath_Join home "docker-compose".
Proof.
  change (filepath_Join "docker-compose" "oci") with "docker-compose/oci".
  unfold filepath_Join. destruct (String.eqb home "") eqn:H0; [reflexivity|].
  change (String.eqb "docker-compose/oci" "") with false.
  change (String.eqb "docker-compose" "") with false. cbv iota.
  destruct (String.eqb home "/") eqn:H1.
  - apply filepath_Dir_docker_compose_oci.
  - rewrite <- !append_assoc. apply filepath_Dir_docker_compose_oci.
Qed.



(** ** The composed document *)

Lemma concat_sep_each b : forall bs,
  String.concat separator (b :: bs) = b +:+ sep_each bs.
Proof.
  intros bs. revert b. induction bs as [|c bs IH]; intros b.
  - simpl. by rewrite append_nil_r.
  - change (String.concat separator (b :: c :: bs))
      with (b +:+ separator +:+ String.concat separator (c :: bs)).
    by rewrite IH.
Qed.

Lemma appended_0 bs : appended 0 bs = String.concat separator bs.
Proof. destruct bs as [|b bs]; [reflexivity|]. symmetry. apply concat_sep_each. Qed.

Lemma length_sep_each bs :
  String.length (sep_each bs) = total_length bs + String.length separator * length bs.
Proof.
  induction bs as [|b bs IH]; [reflexivity|].
  simpl sep_each. rewrite !length_append, IH. simpl. lia.
Qed.

Lemma length_concat bs :
  String.length (String.concat separator bs)
  = total_length bs + String.length separator * (length bs - 1).
Proof.
  destruct bs as [|b bs]; [reflexivity|].
  rewrite concat_sep_each, length_append, length_sep_each. simpl. lia.
Qed.

Lemma fetched_fs op t : fetched (EvFs op :: t) = fetched t.
Proof. reflexivity. Qed.

Section LoadProperties.
Context (E : Externals).
Implicit Types (g : ociRemoteLoader E) (w : World) (p q : string).

(** ** The steps of [Load], one at a time *)

Lemma fault_not_ENOENT op p (f : Fault) :
  os_IsNotExist (Some (PathError op p (fault_errno f))) = false.
Proof. by destruct f. Qed.

Lemma os_Stat_world p w : snd (os_Stat E p w) = log (EvFs (OpStat p)) w.
Proof. unfold os_Stat. destruct (fs_fault E w (OpStat p)); [done|]. by destruct (nodes w !! p). Qed.

Lemma os_Stat_present p w :
  is_Some (nodes w !! p) ->
  exists err, os_Stat E p w = (Ok err, log (EvFs (OpStat p)) w) /\ os_IsNotExist err = false.
Proof.
  intros [n Hn]. unfold os_Stat. destruct (fs_fault E w (OpStat p)) as [f|].
  - eexists; split; [reflexivity|]. apply fault_not_ENOENT.
  - rewrite Hn. by eexists.
Qed.

Lemma os_Stat_inv p w r w' :
  os_Stat E p w = (r, w') ->
  w' = log (EvFs (OpStat p)) w /\
  exists err, r = Ok err /\
    (os_IsNotExist err = true -> nodes w !! p = None /\ fs_fault E w (OpStat p) = None) /\
    (os_IsNotExist err = false -> is_Some (nodes w !! p) \/ is_Some (fs_fault E w (OpStat p))).
Proof.
  unfold os_Stat. destruct (fs_fault E w (OpStat p)) as [f|] eqn:Hf.
  - intros [= <- <-]. split; [done|]. eexists; split; [done|].
    rewrite fault_not_ENOENT. split; [done|]. right; eauto.
  - destruct (nodes w !! p) eqn:Hn; intros [= <- <-]; (split; [done|]);
      eexists; (split; [done|]); simpl; split; try done; eauto.
Qed.

Lemma resolve_inv g ctx path w ref opt content desc w1 :
  resolve E g ctx path w = (Ok (ref, opt, content, desc), w1) ->
  exists rest,
    slice_from (String.length prefix) path = Some rest /\
    ParseDockerRef E rest = Ok ref /\
    GetImageConfig E (dockerCli g) = Ok opt /\
    registry E opt ctx w (Named_String E ref) = Ok (content, desc) /\
    w1 = log (EvGet (Named_String E ref) (Ok (content, desc))) w.
Proof.
  unfold resolve. destruct (slice_from _ path) as [rest|]; [|discriminate].
  unfold bind, lift, resolver_Get, ret.
  destruct (ParseDockerRef E rest) as [ref'| |] eqn:Hp; try discriminate.
  destruct (GetImageConfig E (dockerCli g)) as [opt'| |] eqn:Hc; try discriminate.
  destruct (registry E opt' ctx w (Named_String E ref')) as [[c d]| |] eqn:Hr;
    try discriminate.
  simpl. intros [= <- <- <- <- <-]. exists rest. by rewrite Hr.
Qed.

(** Past the manifest fetch [Load] is the existence check and what
    follows it. *)
Lemma Load_resolved g ctx path w ref opt content desc w1 :
  offline g = false ->
  resolve E g ctx path w = (Ok (ref, opt, content, desc), w1) ->
  Load E g ctx path w =
    bind (os_Stat E (cache_dir g desc)) (fun err =>
      if os_IsNotExist err
      then bind (populate E ref opt ctx content (cache_dir g desc) (compose_file g desc))
             (fun _ => ret (compose_file g desc))
      else ret (compose_file g desc)) w1.
Proof.
  intros Hoff Hres. unfold Load. rewrite Hoff.
  unfold bind at 1. by rewrite Hres.
Qed.

Lemma Load_hit g ctx path w ref opt content desc w1 err w2 :
  offline g = false ->
  resolve E g ctx path w = (Ok (ref, opt, content, desc), w1) ->
  os_Stat E (cache_dir g desc) w1 = (Ok err, w2) ->
  os_IsNotExist err = false ->
  Load E g ctx path w = (Ok (compose_file g desc), w2).
Proof.
  intros Hoff Hres Hstat Herr. rewrite (Load_resolved _ _ _ _ _ _ _ _ _ Hoff Hres).
  unfold bind at 1. by rewrite Hstat, Herr.
Qed.

Lemma Load_miss g ctx path w ref opt content desc w1 err w2 :
  offline g = false ->
  resolve E g ctx path w = (Ok (ref, opt, content, desc), w1) ->
  os_Stat E (cache_dir g desc) w1 = (Ok err, w2) ->
  os_IsNotExist err = true ->
  Load E g ctx path w =
    bind (populate E ref opt ctx content (cache_dir g desc) (compose_file g desc))
      (fun _ => ret (compose_file g desc)) w2.
Proof.
  intros Hoff Hres Hstat Herr. rewrite (Load_resolved _ _ _ _ _ _ _ _ _ Hoff Hres).
  unfold bind at 1. by rewrite Hstat, Herr.
Qed.

(** A present directory is a hit, whatever the fault oracle says. *)
Lemma Load_hit_present g ctx path w ref opt content desc w1 :
  offline g = false ->
  resolve E g ctx path w = (Ok (ref, opt, content, desc), w1) ->
  is_Some (nodes w1 !! cache_dir g desc) ->
  Load E g ctx path w =
    (Ok (compose_file g desc), log (EvFs (OpStat (cache_dir g desc))) w1).
Proof.
  intros Hoff Hres Hdir.
  destruct (os_Stat_present _ _ Hdir) as (err & Hstat & Herr).
  by apply (Load_hit _ _ _ _ _ _ _ _ _ _ _ Hoff Hres Hstat Herr).
Qed.

(** ** The file system calls *)

Lemma mkdirs_keeps ps : forall (m m' : gmap string node) q n,
  mkdirs ps m = inr m' -> m !! q = Some n -> m' !! q = Some n.
Proof.
  induction ps as [|a ps IH]; simpl; intros m m' q n H Hq.
  - by inversion H; subst.
  - destruct (m !! a) as [[|d]|] eqn:Ha; [eauto|discriminate|].
    eapply IH; [exact H|]. rewrite lookup_insert_ne; [done|]. congruence.
Qed.

Lemma mkdirs_made ps : forall (m m' : gmap string node) q,
  mkdirs ps m = inr m' -> In q ps -> m' !! q = Some Dir.
Proof.
  induction ps as [|a ps IH]; simpl; intros m m' q H Hin; [done|].
  destruct (m !! a) as [[|d]|] eqn:Ha; [|discriminate|].
  - destruct Hin as [->|Hin]; [|eauto]. by eapply mkdirs_keeps.
  - destruct Hin as [->|Hin]; [|eauto].
    eapply mkdirs_keeps; [exact H|]. by rewrite lookup_insert_eq.
Qed.

Lemma mkdirs_new ps : forall (m m' : gmap string node) q,
  mkdirs ps m = inr m' ->
  m' !! q = m !! q \/ (m !! q = None /\ m' !! q = Some Dir).
Proof.
  induction ps as [|a ps IH]; simpl; intros m m' q H.
  - inversion H; subst. by left.
  - destruct (m !! a) as [[|d]|] eqn:Ha; [eauto|discriminate|].
    destruct (IH _ _ q H) as [Hq|[Hq Hq']]; destruct (decide (a = q)) as [->|Hne].
    + right. split; [done|]. by rewrite Hq, lookup_insert_eq.
    + left. by rewrite Hq, lookup_insert_ne.
    + by rewrite lookup_insert_eq in Hq.
    + right. split; [|done]. by rewrite lookup_insert_ne in Hq.
Qed.

Lemma walk_last : forall s acc, acc +:+ s <> "" -> In (acc +:+ s) (walk acc s).
Proof.
  induction s as [|c s IH]; intros acc Hne; simpl.
  - rewrite append_nil_r in *. apply String.eqb_neq in Hne. rewrite Hne. by left.
  - apply in_or_app. right.
    replace (acc +:+ String c s) with ((acc +:+ String c "") +:+ s) in *
      by (by rewrite append_assoc).
    by apply IH.
Qed.

Lemma os_MkdirAll_trace p w r w' :
  os_MkdirAll E p w = (r, w') -> trace w' = EvFs (OpMkdirAll p) :: trace w.
Proof.
  unfold os_MkdirAll. destruct (fs_fault E w (OpMkdirAll p)); [by intros [= <- <-]|].
  destruct (nodes w !! p) as [[|d]|]; try by intros [= <- <-].
  destruct (String.eqb p ""); [by intros [= <- <-]|].
  destruct (mkdirs _ _) as [[no q]|m]; by intros [= <- <-].
Qed.

Lemma os_MkdirAll_ok p w w' :
  os_MkdirAll E p w = (Ok tt, w') ->
  nodes w' !! p = Some Dir /\
  (forall q n, nodes w !! q = Some n -> nodes w' !! q = Some n) /\
  (forall q, nodes w' !! q = nodes w !! q \/
             (nodes w !! q = None /\ nodes w' !! q = Some Dir)).
Proof.
  unfold os_MkdirAll. destruct (fs_fault E w (OpMkdirAll p)); [discriminate|].
  destruct (nodes w !! p) as [[|d]|] eqn:Hp; try discriminate.
  - intros [= <-]. simpl. repeat split; auto.
  - destruct (String.eqb p "") eqn:Hne; [discriminate|]. apply String.eqb_neq in Hne.
    destruct (mkdirs _ _) as [[no q]|m] eqn:Hm; [discriminate|].
    intros [= <-]. simpl. split; [|split].
    + eapply mkdirs_made; [exact Hm|]. by apply (walk_last p "").
    + intros q n. by eapply mkdirs_keeps.
    + intros q. by eapply mkdirs_new.
Qed.

Lemma os_Create_ok p w f w' :
  os_Create E p w = (Ok f, w') ->
  f = p /\ nodes w !! p <> Some Dir /\
  w' = set_nodes (<[p := File ""]> (nodes w)) (log (EvFs (OpCreate p)) w).
Proof.
  unfold os_Create. destruct (fs_fault E w (OpCreate p)); [discriminate|].
  destruct (nodes w !! p) as [[|d]|] eqn:Hp; [discriminate| |];
    (destruct (nodes w !! filepath_Dir p) as [[|d']|]; [|discriminate..]);
    by intros [= <- <-].
Qed.

Lemma File_Write_ok f data w n w' :
  File_Write E f data w = (Ok n, w') ->
  exists cur, nodes w !! f = Some (File cur) /\
    w' = set_nodes (<[f := File (cur +:+ data)]> (nodes w)) (log (EvFs (OpWrite f data)) w).
Proof.
  unfold File_Write. destruct (fs_fault E w (OpWrite f data)); [discriminate|].
  destruct (nodes w !! f) as [[|cur]|]; try discriminate.
  intros [= _ <-]. by exists cur.
Qed.

(** ** Computations that touch one file only *)

Lemma only_file_changed_refl f w : only_file_changed f w w.
Proof. split; eauto. Qed.

Lemma only_file_changed_trans f w1 w2 w3 :
  only_file_changed f w1 w2 -> only_file_changed f w2 w3 -> only_file_changed f w1 w3.
Proof.
  intros [H1 F1] [H2 F2]. split.
  - intros q Hq. by rewrite H2, H1.
  - intros cur Hc. destruct (F1 _ Hc) as [c2 Hc2]. eauto.
Qed.

Lemma only_file_changed_log f ev w : only_file_changed f w (log ev w).
Proof. split; eauto. Qed.

Lemma touches_only_ret {A} f (a : A) : touches_only f (ret a).
Proof. intros w r w' [= <- <-]. apply only_file_changed_refl. Qed.

Lemma touches_only_lift {A} f (o : outcome A) : touches_only f (lift o).
Proof. intros w r w' [= <- <-]. apply only_file_changed_refl. Qed.

Lemma touches_only_bind {A B} f (m : M A) (k : A -> M B) :
  touches_only f m -> (forall a, touches_only f (k a)) -> touches_only f (bind m k).
Proof.
  intros Hm Hk w r w'. unfold bind. destruct (m w) as [[a|e|s] w1] eqn:Hmw.
  - intros Hkw. eapply only_file_changed_trans; [by eapply Hm|by eapply Hk].
  - intros [= <- <-]. by eapply Hm.
  - intros [= <- <-]. by eapply Hm.
Qed.

Lemma touches_only_Write f data : touches_only f (File_Write E f data).
Proof.
  intros w r w'. unfold File_Write.
  destruct (fs_fault E w (OpWrite f data)); [intros [= <- <-]; apply only_file_changed_log|].
  destruct (nodes w !! f) as [[|cur]|] eqn:Hf;
    try (intros [= <- <-]; apply only_file_changed_log).
  intros [= <- <-]. split; simpl.
  - intros q Hq. by rewrite lookup_insert_ne.
  - intros c _. rewrite lookup_insert_eq. eauto.
Qed.

Lemma touches_only_Get f opt ctx ref : touches_only f (resolver_Get E opt ctx ref).
Proof. intros w r w' [= <- <-]. apply only_file_changed_log. Qed.

Lemma touches_only_write_layers ref opt ctx f : forall layers i,
  touches_only f (write_layers E ref opt ctx f i layers).
Proof.
  induction layers as [|layer rest IH]; intros i; simpl.
  - apply touches_only_ret.
  - apply touches_only_bind; [apply touches_only_lift|]. intros d.
    apply touches_only_bind; [apply touches_only_Get|]. intros got.
    apply touches_only_bind.
    { destruct (Nat.ltb 0 i); [|apply touches_only_ret].
      apply touches_only_bind; [apply touches_only_Write|].
      intros _. apply touches_only_ret. }
    intros _. apply touches_only_bind; [apply touches_only_Write|]. intros _. apply IH.
Qed.

(** ** The loop over the layers *)

Lemma write_layers_ok ref opt ctx f : forall layers i w w' cur,
  write_layers E ref opt ctx f i layers w = (Ok tt, w') ->
  nodes w !! f = Some (File cur) ->
  exists blobs,
    Forall2 (layer_fetch E ref) layers blobs /\
    fetched (trace w') = (fetched (trace w) ++ blobs)%list /\
    nodes w' !! f = Some (File (cur +:+ appended i (map snd blobs))).
Proof.
  induction layers as [|layer rest IH]; intros i w w' cur Hrun Hf.
  - injection Hrun as <-. exists []. split; [constructor|]. split.
    + by rewrite app_nil_r.
    + destruct i; simpl; by rewrite append_nil_r.
  - simpl in Hrun. unfold bind at 1, lift in Hrun.
    destruct (WithDigest E ref (Digest_ layer)) as [d| |] eqn:Hd; try discriminate.
    unfold bind at 1, resolver_Get in Hrun.
    destruct (registry E opt ctx w (Named_String E d)) as [got| |] eqn:Hg;
      try discriminate.
    set (wg := log (EvGet (Named_String E d) (Ok got)) w) in Hrun.
    assert (Hsep : exists ws,
      write_layers E ref opt ctx f (S i) rest ws = (Ok tt, w') /\
      fetched (trace ws) = (fetched (trace w) ++ [(Named_String E d, fst got)])%list /\
      nodes ws !! f = Some (File (cur +:+ appended i [fst got]))).
    { unfold bind at 1 in Hrun. destruct (Nat.ltb 0 i) eqn:Hi.
      - unfold bind at 1 in Hrun.
        destruct (File_Write E f separator wg) as [[n| |] ws1] eqn:Hw1; try discriminate.
        unfold ret at 1 in Hrun. unfold bind at 1 in Hrun.
        destruct (File_Write E f (fst got) ws1) as [[n2| |] ws2] eqn:Hw2; try discriminate.
        apply File_Write_ok in Hw1 as (c1 & Hc1 & ->).
        apply File_Write_ok in Hw2 as (c2 & Hc2 & ->).
        simpl in Hc1, Hc2. rewrite lookup_insert_eq in Hc2. injection Hc2 as <-.
        rewrite Hf in Hc1. injection Hc1 as <-.
        eexists. split; [exact Hrun|]. simpl. split; [done|].
        rewrite lookup_insert_eq. destruct i; [discriminate|].
        simpl. by rewrite append_nil_r, append_assoc.
      - unfold ret at 1 in Hrun. unfold bind at 1 in Hrun.
        destruct (File_Write E f (fst got) wg) as [[n2| |] ws2] eqn:Hw2; try discriminate.
        apply File_Write_ok in Hw2 as (c2 & Hc2 & ->).
        simpl in Hc2. rewrite Hf in Hc2. injection Hc2 as <-.
        eexists. split; [exact Hrun|]. simpl. split; [done|].
        rewrite lookup_insert_eq. destruct i; [|discriminate].
        simpl. by rewrite append_nil_r. }
    destruct Hsep as (ws & Hrest & Hfetch & Hfile).
    destruct (IH _ _ _ _ Hrest Hfile) as (blobs & Hall & Hfetch' & Hfile').
    exists ((Named_String E d, fst got) :: blobs). split; [|split].
    + constructor; [|done]. by exists d.
    + by rewrite Hfetch', Hfetch, <- app_assoc.
    + rewrite Hfile'. f_equal. f_equal. rewrite append_assoc. f_equal.
      destruct i; simpl; by rewrite ?append_nil_r, ?append_assoc.
Qed.

Lemma File_Write_runs f data w cur :
  fs_fault E w (OpWrite f data) = None ->
  nodes w !! f = Some (File cur) ->
  File_Write E f data w =
    (Ok (String.length data),
     set_nodes (<[f := File (cur +:+ data)]> (nodes w)) (log (EvFs (OpWrite f data)) w)).
Proof. intros Hnf Hf. unfold File_Write. by rewrite Hnf, Hf. Qed.

(** With the blobs served and the writes not faulted, the loop runs to
    its end. *)
Lemma write_layers_runs ref opt ctx f :
  (forall wx data, fs_fault E wx (OpWrite f data) = None) ->
  forall layers contents,
    Forall2 (layer_served E ref opt ctx) layers contents ->
    forall i w cur,
      nodes w !! f = Some (File cur) ->
      exists w', write_layers E ref opt ctx f i layers w = (Ok tt, w') /\
                 nodes w' !! f = Some (File (cur +:+ appended i contents)).
Proof.
  intros Hnf layers contents Hall.
  induction Hall as [|layer content rest contents (d & Hd & Hreg) _ IH]; intros i w cur Hf.
  - exists w. split; [done|]. destruct i; simpl; by rewrite append_nil_r.
  - destruct (Hreg w) as [dsc Hr].
    simpl. unfold bind at 1, lift. rewrite Hd.
    unfold bind at 1, resolver_Get. rewrite Hr. cbv beta iota zeta. simpl fst.
    set (wg := log (EvGet (Named_String E d) (Ok (content, dsc))) w).
    assert (Hg : nodes wg !! f = Some (File cur)) by done.
    destruct i as [|i].
    + change (Nat.ltb 0 0) with false. cbv iota. unfold bind at 1, ret at 1.
      unfold bind at 1. rewrite (File_Write_runs _ _ _ _ (Hnf _ _) Hg).
      destruct (IH 1 (set_nodes (<[f := File (cur +:+ content)]> (nodes wg))
                       (log (EvFs (OpWrite f content)) wg)) (cur +:+ content))
        as (w' & Hrun & Hdoc); [simpl; by rewrite lookup_insert_eq|].
      exists w'. split; [done|]. rewrite Hdoc. simpl. by rewrite append_assoc.
    + change (Nat.ltb 0 (S i)) with true. cbv iota. unfold bind at 1.
      unfold bind at 1. rewrite (File_Write_runs _ _ _ _ (Hnf _ _) Hg).
      unfold ret at 1.
      set (ws := set_nodes (<[f := File (cur +:+ separator)]> (nodes wg))
                   (log (EvFs (OpWrite f separator)) wg)).
      assert (Hs : nodes ws !! f = Some (File (cur +:+ separator)))
        by (simpl; by rewrite lookup_insert_eq).
      unfold bind at 1. rewrite (File_Write_runs _ _ _ _ (Hnf _ _) Hs).
      destruct (IH (S (S i))
                  (set_nodes (<[f := File ((cur +:+ separator) +:+ content)]> (nodes ws))
                     (log (EvFs (OpWrite f content)) ws))
                  ((cur +:+ separator) +:+ content))
        as (w' & Hrun & Hdoc); [simpl; by rewrite lookup_insert_eq|].
      exists w'. split; [done|]. rewrite Hdoc. simpl. by rewrite !append_assoc.
Qed.

(** ** The cache-miss branch *)

(** Once the directory and the file exist, the rest of [populate] is the
    decoding, the media type check and the loop, with the file closed
    at the end. *)
Lemma populate_created ref opt ctx content local composeFile w w3 f w4 :
  os_MkdirAll E local w = (Ok tt, w3) ->
  os_Create E composeFile w3 = (Ok f, w4) ->
  populate E ref opt ctx content local composeFile w =
    defer (File_Close composeFile)
      (bind (lift (Unmarshal E content)) (fun descriptor =>
         if negb (String.eqb (MediaType (Config descriptor)) compose_media_type)
         then lift (Fail (Errorf
                (Named_String E ref +:+ " is not a compose project OCI artifact, but "
                   +:+ MediaType (Config descriptor))))
         else write_layers E ref opt ctx composeFile 0 (Layers descriptor))) w4.
Proof.
  intros Hmk Hcr. destruct (os_Create_ok _ _ _ _ Hcr) as (-> & _ & _).
  unfold populate. unfold bind at 1. rewrite Hmk. unfold bind at 1. by rewrite Hcr.
Qed.

Lemma populate_ok_inv ref opt ctx content local composeFile w w' :
  populate E ref opt ctx content local composeFile w = (Ok tt, w') ->
  exists w3 w4 m w5,
    os_MkdirAll E local w = (Ok tt, w3) /\
    os_Create E composeFile w3 = (Ok composeFile, w4) /\
    Unmarshal E content = Ok m /\
    MediaType (Config m) = compose_media_type /\
    write_layers E ref opt ctx composeFile 0 (Layers m) w4 = (Ok tt, w5) /\
    w' = log (EvFs (OpClose composeFile)) w5.
Proof.
  intros Hrun.
  destruct (os_MkdirAll E local w) as [[[]| |] w3] eqn:Hmk;
    try (unfold populate, bind in Hrun; rewrite Hmk in Hrun; discriminate).
  destruct (os_Create E composeFile w3) as [[f| |] w4] eqn:Hcr;
    try (unfold populate, bind in Hrun; rewrite Hmk, Hcr in Hrun; discriminate).
  destruct (os_Create_ok _ _ _ _ Hcr) as (-> & _ & _).
  rewrite (populate_created _ _ _ _ _ _ _ _ _ _ Hmk Hcr) in Hrun.
  unfold defer, bind, lift in Hrun.
  destruct (Unmarshal E content) as [m| |] eqn:Hm; try discriminate.
  destruct (String.eqb (MediaType (Config m)) compose_media_type) eqn:Hmt;
    simpl in Hrun; [|discriminate].
  destruct (write_layers E ref opt ctx composeFile 0 (Layers m) w4)
    as [[[]| |] w5] eqn:Hloop; try discriminate.
  injection Hrun as <-. apply String.eqb_eq in Hmt.
  by exists w3, w4, m, w5.
Qed.

(** Whatever happens after the file was created, the directory and the
    file stay. *)
Lemma populate_leaves_entry ref opt ctx content local composeFile w w3 f w4 r w' :
  os_MkdirAll E local w = (Ok tt, w3) ->
  os_Create E composeFile w3 = (Ok f, w4) ->
  populate E ref opt ctx content local composeFile w = (r, w') ->
  nodes w' !! local = Some Dir /\
  (exists data, nodes w' !! composeFile = Some (File data)) /\
  (forall q, q <> composeFile -> nodes w' !! q = nodes w3 !! q).
Proof.
  intros Hmk Hcr Hrun. rewrite (populate_created _ _ _ _ _ _ _ _ _ _ Hmk Hcr) in Hrun.
  destruct (os_MkdirAll_ok _ _ _ Hmk) as (Hdir & _ & _).
  destruct (os_Create_ok _ _ _ _ Hcr) as (_ & Hnd & ->).
  unfold defer in Hrun.
  match type of Hrun with (let (_, _) := ?b ?x in _) = _ =>
    destruct (b x) as [r5 w5] eqn:Hbody;
    assert (Hfr : only_file_changed composeFile x w5) end.
  { revert Hbody. apply touches_only_bind; [apply touches_only_lift|]. intros m.
    destruct (negb _); [apply touches_only_lift|apply touches_only_write_layers]. }
  injection Hrun as <- <-. destruct Hfr as [Hother Hfile]. simpl in *.
  assert (Hne : local <> composeFile) by congruence.
  split; [|split].
  - rewrite Hother, lookup_insert_ne; done.
  - apply (Hfile ""). by rewrite lookup_insert_eq.
  - intros q Hq. rewrite Hother, lookup_insert_ne; done.
Qed.

(** ** Cache misses *)

(** Every successful cache miss wrote the concatenation of what it
    fetched. *)
Lemma Load_miss_written g ctx path w ref opt content desc w1 err w2 p w' :
  offline g = false ->
  resolve E g ctx path w = (Ok (ref, opt, content, desc), w1) ->
  os_Stat E (cache_dir g desc) w1 = (Ok err, w2) ->
  os_IsNotExist err = true ->
  Load E g ctx path w = (Ok p, w') ->
  p = compose_file g desc /\
  exists m blobs,
    Unmarshal E content = Ok m /\
    Forall2 (layer_fetch E ref) (Layers m) blobs /\
    fetched (trace w') = (fetched (trace w1) ++ blobs)%list /\
    nodes w' !! p = Some (File (String.concat separator (map snd blobs))) /\
    String.length (String.concat separator (map snd blobs))
      = total_length (map snd blobs)
        + String.length separator * (length (Layers m) - 1) /\
    (forall rb, blobs = [rb] -> nodes w' !! p = Some (File (snd rb))).
Proof.
  intros Hoff Hres Hstat Herr Hload.
  rewrite (Load_miss _ _ _ _ _ _ _ _ _ _ _ Hoff Hres Hstat Herr) in Hload.
  unfold bind at 1 in Hload.
  destruct (populate E ref opt ctx content (cache_dir g desc) (compose_file g desc) w2)
    as [[[]| |] wp] eqn:Hpop; try discriminate.
  injection Hload as <- <-. split; [done|].
  destruct (populate_ok_inv _ _ _ _ _ _ _ _ Hpop)
    as (w3 & w4 & m & w5 & Hmk & Hcr & Hm & _ & Hloop & ->).
  destruct (os_Create_ok _ _ _ _ Hcr) as (_ & _ & Hw4).
  assert (Hfile : nodes w4 !! compose_file g desc = Some (File "")).
  { rewrite Hw4. simpl. by rewrite lookup_insert_eq. }
  destruct (write_layers_ok _ _ _ _ _ _ _ _ _ Hloop Hfile) as (blobs & Hall & Hfetch & Hdoc).
  rewrite appended_0 in Hdoc. change ("" +:+ ?x) with x in Hdoc.
  exists m, blobs. split; [done|]. split; [done|]. split; [|split; [done|split]].
  - simpl. rewrite Hfetch, Hw4. simpl.
    rewrite (os_MkdirAll_trace _ _ _ _ Hmk).
    destruct (os_Stat_inv _ _ _ _ Hstat) as (-> & _). done.
  - rewrite length_concat, length_map. by rewrite (Forall2_length _ _ _ Hall).
  - intros rb ->. exact Hdoc.
Qed.

(** A cache miss succeeds when the entry can be created, the manifest is
    a compose project, every layer is served and no write is faulted. *)
Lemma Load_miss_runs g ctx path w ref opt content desc w1 err w2 w3 f w4 m contents :
  offline g = false ->
  resolve E g ctx path w = (Ok (ref, opt, content, desc), w1) ->
  os_Stat E (cache_dir g desc) w1 = (Ok err, w2) ->
  os_IsNotExist err = true ->
  os_MkdirAll E (cache_dir g desc) w2 = (Ok tt, w3) ->
  os_Create E (compose_file g desc) w3 = (Ok f, w4) ->
  Unmarshal E content = Ok m ->
  MediaType (Config m) = compose_media_type ->
  Forall2 (layer_served E ref opt ctx) (Layers m) contents ->
  (forall wx data, fs_fault E wx (OpWrite (compose_file g desc) data) = None) ->
  exists w',
    Load E g ctx path w = (Ok (compose_file g desc), w') /\
    nodes w' !! compose_file g desc = Some (File (String.concat separator contents)).
Proof.
  intros Hoff Hres Hstat Herr Hmk Hcr Hm Hmt Hall Hnf.
  rewrite (Load_miss _ _ _ _ _ _ _ _ _ _ _ Hoff Hres Hstat Herr).
  destruct (os_Create_ok _ _ _ _ Hcr) as (_ & _ & Hw4).
  assert (Hfile : nodes w4 !! compose_file g desc = Some (File "")).
  { rewrite Hw4. simpl. by rewrite lookup_insert_eq. }
  destruct (write_layers_runs ref opt ctx _ Hnf _ _ Hall 0 w4 "" Hfile)
    as (w5 & Hloop & Hdoc).
  rewrite appended_0 in Hdoc. change ("" +:+ ?x) with x in Hdoc.
  exists (log (EvFs (OpClose (compose_file g desc))) w5). split; [|done].
  unfold bind at 1. rewrite (populate_created _ _ _ _ _ _ _ _ _ _ Hmk Hcr).
  apply String.eqb_eq in Hmt.
  unfold defer, bind, lift. rewrite Hm. cbv beta iota. rewrite Hmt.
  cbv beta iota delta [negb]. by rewrite Hloop.
Qed.

(** C1. On a cache miss the composed file is the concatenation of the
    layer contents in manifest order, with the separator between
    consecutive layers and nowhere else.  Whenever [Load] succeeds, one
    blob was fetched per layer, in order and by the layer's digest, and
    the file is their [String.concat] with the separator: its length is
    the total length of the blobs plus [N - 1] separators, and with one
    layer the file is the blob itself.  And [Load] does succeed, with
    that file, when the entry can be created, the manifest is a compose
    project, the registry serves every layer and no write is faulted. *)
Theorem Load_miss_composes g ctx path w ref opt content desc w1 err w2 :
  offline g = false ->
  resolve E g ctx path w = (Ok (ref, opt, content, desc), w1) ->
  os_Stat E (cache_dir g desc) w1 = (Ok err, w2) ->
  os_IsNotExist err = true ->
  (forall p w',
     Load E g ctx path w = (Ok p, w') ->
     p = compose_file g desc /\
     exists m blobs,
       Unmarshal E content = Ok m /\
       Forall2 (layer_fetch E ref) (Layers m) blobs /\
       fetched (trace w') = (fetched (trace w1) ++ blobs)%list /\
       nodes w' !! p = Some (File (String.concat separator (map snd blobs))) /\
       String.length (String.concat separator (map snd blobs))
         = total_length (map snd blobs)
           + String.length separator * (length (Layers m) - 1) /\
       (forall rb, blobs = [rb] -> nodes w' !! p = Some (File (snd rb)))) /\
  (forall w3 f w4 m contents,
     os_MkdirAll E (cache_dir g desc) w2 = (Ok tt, w3) ->
     os_Create E (compose_file g desc) w3 = (Ok f, w4) ->
     Unmarshal E content = Ok m ->
     MediaType (Config m) = compose_media_type ->
     Forall2 (layer_served E ref opt ctx) (Layers m) contents ->
     (forall wx data, fs_fault E wx (OpWrite (compose_file g desc) data) = None) ->
     exists w',
       Load E g ctx path w = (Ok (compose_file g desc), w') /\
       nodes w' !! compose_file g desc = Some (File (String.concat separator contents))).
Proof.
  intros Hoff Hres Hstat Herr. split.
  - intros p w'. by apply (Load_miss_written g ctx path w ref opt content desc w1 err w2).
  - intros w3 f w4 m contents.
    by apply (Load_miss_runs g ctx path w ref opt content desc w1 err w2).
Qed.

(** ** What a load leaves behind *)

Lemma os_MkdirAll_no_panic p w s w' : os_MkdirAll E p w <> (Panic s, w').
Proof.
  unfold os_MkdirAll. destruct (fs_fault E w (OpMkdirAll p)); [done|].
  destruct (nodes w !! p) as [[|d]|]; try done.
  destruct (String.eqb p ""); [done|]. by destruct (mkdirs _ _) as [[no q]|m].
Qed.

Lemma os_Create_no_panic p w s w' : os_Create E p w <> (Panic s, w').
Proof.
  unfold os_Create. destruct (fs_fault E w (OpCreate p)); [done|].
  destruct (nodes w !! p) as [[|d]|]; try done;
    by destruct (nodes w !! filepath_Dir p) as [[|d']|].
Qed.

(** A later load that resolves to the same digest and finds the
    directory is a hit. *)
Lemma Load_later_hit g ctx path wl ref opt content desc' wl1 desc :
  offline g = false ->
  resolve E g ctx path wl = (Ok (ref, opt, content, desc'), wl1) ->
  Digest_ desc' = Digest_ desc ->
  is_Some (nodes wl !! cache_dir g desc) ->
  Load E g ctx path wl =
    (Ok (compose_file g desc), log (EvFs (OpStat (cache_dir g desc))) wl1) /\
  nodes (log (EvFs (OpStat (cache_dir g desc))) wl1) = nodes wl /\
  resolver_calls (trace (log (EvFs (OpStat (cache_dir g desc))) wl1))
  = S (resolver_calls (trace wl)).
Proof.
  intros Hoff Hres Hdig Hdir.
  assert (Hd : cache_dir g desc = cache_dir g desc') by (unfold cache_dir; by rewrite Hdig).
  unfold compose_file. rewrite Hd in *.
  destruct (resolve_inv _ _ _ _ _ _ _ _ _ Hres) as (rest & _ & _ & _ & _ & Hwl1).
  split; [|by subst wl1].
  apply (Load_hit_present _ _ _ _ _ _ _ _ _ Hoff Hres). by subst wl1.
Qed.

(** A load that succeeded after an unfaulted existence check leaves the
    directory in place. *)
Lemma Load_ok_entry g ctx path w ref opt content desc w1 p w' :
  offline g = false ->
  resolve E g ctx path w = (Ok (ref, opt, content, desc), w1) ->
  fs_fault E w1 (OpStat (cache_dir g desc)) = None ->
  Load E g ctx path w = (Ok p, w') ->
  p = compose_file g desc /\ is_Some (nodes w' !! cache_dir g desc).
Proof.
  intros Hoff Hres Hnf Hload.
  destruct (os_Stat E (cache_dir g desc) w1) as [r w2] eqn:Hstat.
  destruct (os_Stat_inv _ _ _ _ Hstat) as (Hw2 & err & -> & Hmiss & Hhit).
  destruct (os_IsNotExist err) eqn:Herr.
  - rewrite (Load_miss _ _ _ _ _ _ _ _ _ _ _ Hoff Hres Hstat Herr) in Hload.
    unfold bind at 1 in Hload.
    destruct (populate E ref opt ctx content (cache_dir g desc) (compose_file g desc) w2)
      as [[[]| |] wp] eqn:Hpop; try discriminate.
    injection Hload as <- <-. split; [done|].
    destruct (populate_ok_inv _ _ _ _ _ _ _ _ Hpop)
      as (w3 & w4 & m & w5 & Hmk & Hcr & _).
    destruct (populate_leaves_entry _ _ _ _ _ _ _ _ _ _ _ _ Hmk Hcr Hpop) as (Hdir & _).
    by rewrite Hdir.
  - rewrite (Load_hit _ _ _ _ _ _ _ _ _ _ _ Hoff Hres Hstat Herr) in Hload.
    injection Hload as <- <-. split; [done|]. subst w2. simpl.
    destruct (Hhit eq_refl) as [Hn|[f Hf]]; [done|congruence].
Qed.

(** C5. When [Load] fails after the directory and the file were created,
    both stay on disk, the file with whatever was written so far; any
    later [Load] that resolves to the same manifest digest on that tree
    returns the path of this file with no error, as it would for a
    complete entry, and leaves the tree as it is. *)
Theorem Load_failure_leaves_hit g ctx path w ref opt content desc
    w1 err w2 w3 f w4 e w' :
  offline g = false ->
  resolve E g ctx path w = (Ok (ref, opt, content, desc), w1) ->
  os_Stat E (cache_dir g desc) w1 = (Ok err, w2) ->
  os_IsNotExist err = true ->
  os_MkdirAll E (cache_dir g desc) w2 = (Ok tt, w3) ->
  os_Create E (compose_file g desc) w3 = (Ok f, w4) ->
  Load E g ctx path w = (Fail e, w') ->
  nodes w' !! cache_dir g desc = Some Dir /\
  (exists partial, nodes w' !! compose_file g desc = Some (File partial)) /\
  (forall path' wl ref' opt' content' desc' wl1,
     nodes wl = nodes w' ->
     resolve E g ctx path' wl = (Ok (ref', opt', content', desc'), wl1) ->
     Digest_ desc' = Digest_ desc ->
     Load E g ctx path' wl =
       (Ok (compose_file g desc), log (EvFs (OpStat (cache_dir g desc))) wl1) /\
     nodes (log (EvFs (OpStat (cache_dir g desc))) wl1) = nodes w').
Proof.
  intros Hoff Hres Hstat Herr Hmk Hcr Hload.
  rewrite (Load_miss _ _ _ _ _ _ _ _ _ _ _ Hoff Hres Hstat Herr) in Hload.
  unfold bind at 1 in Hload.
  destruct (populate E ref opt ctx content (cache_dir g desc) (compose_file g desc) w2)
    as [r wp] eqn:Hpop.
  assert (w' = wp) as -> by (destruct r; by injection Hload).
  destruct (populate_leaves_entry _ _ _ _ _ _ _ _ _ _ _ _ Hmk Hcr Hpop)
    as (Hdir & Hfile & _).
  split; [done|]. split; [done|].
  intros path' wl ref' opt' content' desc' wl1 Hnodes Hres' Hdig.
  destruct (Load_later_hit g ctx path' wl ref' opt' content' desc' wl1 desc)
    as (Hhit & Hsame & _); try done.
  - by rewrite Hnodes, Hdir.
  - split; [done|]. by rewrite Hsame.
Qed.

(** C3, as the code has it.  On a cache miss a manifest whose config
    media type is not the expected one always makes [Load] fail.  When
    the directory and the file could be created, the error is the
    descriptive one, and the directory with an empty composed file stays
    behind: any later [Load] that resolves to the same digest on that
    tree is a hit on it. *)
Theorem Load_media_type_mismatch g ctx path w ref opt content desc w1 err w2 m :
  offline g = false ->
  resolve E g ctx path w = (Ok (ref, opt, content, desc), w1) ->
  os_Stat E (cache_dir g desc) w1 = (Ok err, w2) ->
  os_IsNotExist err = true ->
  Unmarshal E content = Ok m ->
  MediaType (Config m) <> compose_media_type ->
  exists e w',
    Load E g ctx path w = (Fail e, w') /\
    forall w3 f w4,
      os_MkdirAll E (cache_dir g desc) w2 = (Ok tt, w3) ->
      os_Create E (compose_file g desc) w3 = (Ok f, w4) ->
      e = Errorf (Named_String E ref +:+ " is not a compose project OCI artifact, but "
                    +:+ MediaType (Config m)) /\
      nodes w' !! cache_dir g desc = Some Dir /\
      nodes w' !! compose_file g desc = Some (File "") /\
      (forall path' wl ref' opt' content' desc' wl1,
         nodes wl = nodes w' ->
         resolve E g ctx path' wl = (Ok (ref', opt', content', desc'), wl1) ->
         Digest_ desc' = Digest_ desc ->
         Load E g ctx path' wl =
           (Ok (compose_file g desc), log (EvFs (OpStat (cache_dir g desc))) wl1)).
Proof.
  intros Hoff Hres Hstat Herr Hm Hmt.
  rewrite (Load_miss _ _ _ _ _ _ _ _ _ _ _ Hoff Hres Hstat Herr).
  apply String.eqb_neq in Hmt.
  destruct (os_MkdirAll E (cache_dir g desc) w2) as [[[]|e1|s1] w3] eqn:Hmk.
  2:{ exists e1, w3. split; [|discriminate].
      unfold bind at 1, populate. unfold bind at 1. by rewrite Hmk. }
  2:{ by apply os_MkdirAll_no_panic in Hmk. }
  destruct (os_Create E (compose_file g desc) w3) as [[f|e2|s2] w4] eqn:Hcr.
  2:{ exists e2, w4. split; [|intros ? ? ? [= <-]; by rewrite Hcr].
      unfold bind at 1, populate. unfold bind at 1. rewrite Hmk.
      unfold bind at 1. by rewrite Hcr. }
  2:{ by apply os_Create_no_panic in Hcr. }
  assert (Hpop : populate E ref opt ctx content (cache_dir g desc) (compose_file g desc) w2
    = (Fail (Errorf (Named_String E ref +:+ " is not a compose project OCI artifact, but "
                       +:+ MediaType (Config m))),
       log (EvFs (OpClose (compose_file g desc))) w4)).
  { rewrite (populate_created _ _ _ _ _ _ _ _ _ _ Hmk Hcr).
    unfold defer, bind, lift. by rewrite Hm, Hmt. }
  eexists _, _. split; [unfold bind at 1; by rewrite Hpop|].
  intros w3' f' w4' [= <-] Hcr'. rewrite Hcr in Hcr'. injection Hcr' as <- <-.
  destruct (os_MkdirAll_ok _ _ _ Hmk) as (Hdir & _ & _).
  destruct (os_Create_ok _ _ _ _ Hcr) as (_ & Hnd & ->).
  assert (Hne : cache_dir g desc <> compose_file g desc) by congruence.
  split; [done|]. simpl. rewrite lookup_insert_ne, lookup_insert_eq by done.
  split; [done|]. split; [done|].
  intros path' wl ref' opt' content' desc' wl1 Hnodes Hres' Hdig.
  apply (Load_later_hit g ctx path' wl ref' opt' content' desc' wl1 desc); try done.
  rewrite Hnodes. simpl. by rewrite lookup_insert_ne, Hdir.
Qed.

(** C4, as the code has it.  After a [Load] that succeeded (its existence
    check not faulted), a second [Load] of the same reference that
    resolves to the same digest returns the same path; it costs exactly
    one more resolver call, the manifest fetch, and leaves the tree as it
    is. *)
Theorem Load_again g ctx path w ref opt content desc w1 p w'
    ref2 opt2 content2 desc2 w1' :
  offline g = false ->
  resolve E g ctx path w = (Ok (ref, opt, content, desc), w1) ->
  fs_fault E w1 (OpStat (cache_dir g desc)) = None ->
  Load E g ctx path w = (Ok p, w') ->
  resolve E g ctx path w' = (Ok (ref2, opt2, content2, desc2), w1') ->
  Digest_ desc2 = Digest_ desc ->
  Load E g ctx path w' = (Ok p, log (EvFs (OpStat (cache_dir g desc))) w1') /\
  resolver_calls (trace (log (EvFs (OpStat (cache_dir g desc))) w1'))
    = S (resolver_calls (trace w')) /\
  nodes (log (EvFs (OpStat (cache_dir g desc))) w1') = nodes w'.
Proof.
  intros Hoff Hres Hnf Hload Hres2 Hdig.
  destruct (Load_ok_entry _ _ _ _ _ _ _ _ _ _ _ Hoff Hres Hnf Hload) as (-> & Hdir).
  destruct (Load_later_hit g ctx path w' ref2 opt2 content2 desc2 w1' desc)
    as (Hhit & Hsame & Hcalls); done.
Qed.

(** ** Where the cache lives *)

Lemma xdg_CacheFile_ok rel w p w' :
  xdg_CacheFile E rel w = (Ok p, w') -> p = filepath_Join (xdg_CacheHome E) rel.
Proof.
  unfold xdg_CacheFile.
  destruct (os_Stat E _ w) as [[[e|]|e|s] w1]; try (by intros [= <- _]);
    (destruct (os_MkdirAll E _ w1) as [[[]|e'|s'] w2]; [by intros [= <- _]|done..]).
Qed.

Lemma NewOCIRemoteLoader_ok cli off w g w' :
  NewOCIRemoteLoader E cli off w = (Ok g, w') ->
  cache g = filepath_Join (xdg_CacheHome E) "docker-compose" /\
  dockerCli g = cli /\ offline g = off.
Proof.
  unfold NewOCIRemoteLoader.
  destruct (xdg_CacheFile E _ w) as [[c| |] w1] eqn:Hc; try discriminate.
  intros [= <- _]. simpl. apply xdg_CacheFile_ok in Hc as ->.
  by rewrite filepath_Dir_cache_file.
Qed.


(** ** Offline mode, malformed references, short references *)

(** C6. With the offline flag set, [Load] returns the empty path and no
    error for every reference and leaves the world as it was: no resolver
    call, no file-system call, and the reference is not even sliced or
    parsed. *)
Theorem Load_offline g ctx path w :
  offline g = true -> Load E g ctx path w = (Ok "", w).
Proof. intros Hoff. unfold Load. by rewrite Hoff. Qed.

(** C7. Not offline, a reference whose remainder after the scheme prefix
    (what is left of it past the length of the prefix) the parser rejects
    makes [Load] fail with the parser's error, in an unchanged world:
    nothing was asked of the resolver or the file system. *)
Theorem Load_invalid_reference g ctx path rest w e :
  offline g = false ->
  slice_from (String.length prefix) path = Some rest ->
  ParseDockerRef E rest = Fail e ->
  Load E g ctx path w = (Fail e, w).
Proof.
  intros Hoff Hslice Hparse. unfold Load. rewrite Hoff.
  unfold bind at 1, resolve. rewrite Hslice.
  unfold bind at 1, lift. by rewrite Hparse.
Qed.

Lemma Accept_sliceable g path :
  Accept g path = true ->
  exists rest, path = prefix +:+ rest /\
               slice_from (String.length prefix) path = Some rest.
Proof.
  intros H. destruct (prefix_split _ _ H) as [rest ->].
  exists rest. split; [done|]. apply slice_from_append.
Qed.


(** ** Cache hits *)

(** C2. When the digest-named directory exists, [Load] returns the path
    of the composed file inside it.  All it did is one resolver call, the
    manifest fetch, and one existence check: the tree is untouched and the
    file itself is never looked at (it need not even exist). *)
Theorem Load_cache_hit g ctx path w ref opt content desc w1 :
  offline g = false ->
  resolve E g ctx path w = (Ok (ref, opt, content, desc), w1) ->
  is_Some (nodes w !! cache_dir g desc) ->
  Load E g ctx path w =
    (Ok (compose_file g desc),
     log (EvFs (OpStat (cache_dir g desc)))
       (log (EvGet (Named_String E ref) (Ok (content, desc))) w)) /\
  resolver_calls
    (trace (log (EvFs (OpStat (cache_dir g desc)))
       (log (EvGet (Named_String E ref) (Ok (content, desc))) w)))
  = S (resolver_calls (trace w)).
Proof.
  intros Hoff Hres Hdir. split; [|reflexivity].
  destruct (resolve_inv _ _ _ _ _ _ _ _ _ Hres) as (rest & _ & _ & _ & _ & Hw1).
  subst w1. by apply (Load_hit_present _ _ _ _ _ _ _ _ _ Hoff Hres).
Qed.

(** C9. When the existence check fails with an error that is not
    not-exist, [Load] takes the entry for present: it returns the path of
    the composed file right after the check, with no error, and the tree
    is the one it found. *)
Theorem Load_stat_error_is_hit g ctx path w ref opt content desc w1 e w2 :
  offline g = false ->
  resolve E g ctx path w = (Ok (ref, opt, content, desc), w1) ->
  os_Stat E (cache_dir g desc) w1 = (Ok (Some e), w2) ->
  os_IsNotExist (Some e) = false ->
  Load E g ctx path w = (Ok (compose_file g desc), w2) /\
  nodes w2 = nodes w /\
  trace w2 = EvFs (OpStat (cache_dir g desc)) :: trace w1.
Proof.
  intros Hoff Hres Hstat He. split; [by eapply Load_hit|].
  destruct (resolve_inv _ _ _ _ _ _ _ _ _ Hres) as (rest & _ & _ & _ & _ & ->).
  destruct (os_Stat_inv _ _ _ _ Hstat) as (-> & _). done.
Qed.

End LoadProperties.

(** ** The properties at work *)

Lemma Load_miss_composes_witness :
  (exists m blobs,
    Unmarshal E0 (fst manifest_v1) = Ok m /\
    Forall2 (layer_fetch E0 "registry.example/app:v1") (Layers m) blobs /\
    fetched (trace w_cached) = (fetched (trace w_fetched) ++ blobs)%list /\
    nodes w_cached !! file_v1 = Some (File (String.concat separator (map snd blobs)))) /\
  (exists w',
    Load E0 g0 tt app_v1 w0 = (Ok file_v1, w') /\
    nodes w' !! file_v1 = Some (File (String.concat separator [layer_a; layer_b]))).
Proof.
  destruct (Load_miss_composes E0 g0 tt app_v1 w0 "registry.example/app:v1" tt
              (fst manifest_v1) (snd manifest_v1) w_fetched
              (not_exist dir_v1) w_statted) as [Hwritten Hruns]; try reflexivity.
  split.
  - destruct (Hwritten file_v1 w_cached) as (_ & m & blobs & Hm & Hall & Hf & Hdoc & _);
      [reflexivity|].
    exists m, blobs. repeat split; assumption.
  - apply (Hruns (w_mkdir E0) file_v1 (w_created E0) (app_manifest compose_media_type)
             [layer_a; layer_b]); try reflexivity.
    repeat constructor; eexists; (split; [reflexivity|]); intros wx; eexists; reflexivity.
Defined.

(** The scenario of the specification: two layers, one separator. *)
Example Load_two_layers :
  fst (Load E0 g0 tt app_v1 w0) = Ok file_v1 /\
  nodes w_cached !! file_v1
  = Some (File ("services:" +:+ nl +:+ "  a:" +:+ nl +:+ "    image: x" +:+ nl
                +:+ nl +:+ "---" +:+ nl
                +:+ "services:" +:+ nl +:+ "  b:" +:+ nl +:+ "    image: y" +:+ nl)).
Proof. split; vm_compute; reflexivity. Qed.

(** One layer: the file is the layer, byte for byte. *)
Example Load_one_layer :
  nodes (snd (Load E0 g0 tt app_single w0))
    !! "/home/user/.cache/docker-compose/2222/compose.yaml"
  = Some (File layer_a).
Proof. vm_compute. reflexivity. Qed.

Lemma Load_failure_leaves_hit_witness :
  fst (Load E_broken gb tt app_v1 w0) = Fail lost_layer_error /\
  nodes w_partial !! dir_v1 = Some Dir /\
  nodes w_partial !! file_v1 = Some (File layer_a) /\
  Load E_broken gb tt app_v1 w_partial
  = (Ok file_v1,
     log (EvFs (OpStat dir_v1))
       (fetched_manifest "registry.example/app:v1" manifest_v1 w_partial)).
Proof.
  destruct (Load_failure_leaves_hit E_broken gb tt app_v1 w0
              "registry.example/app:v1" tt (fst manifest_v1) (snd manifest_v1)
              w_fetched (not_exist dir_v1) w_statted
              (w_mkdir E_broken) file_v1 (w_created E_broken)
              lost_layer_error w_partial) as (Hdir & _ & Hlater); try reflexivity.
  split; [reflexivity|]. split; [exact Hdir|]. split; [vm_compute; reflexivity|].
  apply (Hlater app_v1 w_partial "registry.example/app:v1" tt
           (fst manifest_v1) (snd manifest_v1)
           (fetched_manifest "registry.example/app:v1" manifest_v1 w_partial));
    reflexivity.
Defined.

(** C3, as stated, fails: the load of an artifact with another config
    media type fails, but it has created the directory and an empty file,
    and the next load of the same reference, whose manifest still has the
    wrong media type, succeeds on that entry. *)
Lemma media_type_mismatch_entry_is_reused :
  nodes w0 !! dir_helm = None /\
  Unmarshal E0 (fst manifest_helm)
    = Ok (app_manifest "application/vnd.cncf.helm.config.v1+json") /\
  fst (Load E0 g0 tt app_helm w0) = Fail helm_error /\
  nodes w_helm !! dir_helm = Some Dir /\
  nodes w_helm !! file_helm = Some (File "") /\
  fst (Load E0 g0 tt app_helm w_helm) = Ok file_helm.
Proof. repeat split; vm_compute; reflexivity. Qed.

Lemma Load_media_type_mismatch_witness :
  exists e w',
    Load E0 g0 tt app_helm w0 = (Fail e, w') /\
    forall w3 f w4,
      os_MkdirAll E0 dir_helm
        (log (EvFs (OpStat dir_helm))
           (fetched_manifest "registry.example/app:helm" manifest_helm w0)) = (Ok tt, w3) ->
      os_Create E0 file_helm w3 = (Ok f, w4) ->
      e = helm_error /\
      nodes w' !! dir_helm = Some Dir /\
      nodes w' !! file_helm = Some (File "") /\
      (forall path' wl ref' opt' content' desc' wl1,
         nodes wl = nodes w' ->
         resolve E0 g0 tt path' wl = (Ok (ref', opt', content', desc'), wl1) ->
         Digest_ desc' = Digest_ (snd manifest_helm) ->
         Load E0 g0 tt path' wl = (Ok file_helm, log (EvFs (OpStat dir_helm)) wl1)).
Proof.
  apply (Load_media_type_mismatch E0 g0 tt app_helm w0
           "registry.example/app:helm" tt (fst manifest_helm) (snd manifest_helm)
           (fetched_manifest "registry.example/app:helm" manifest_helm w0)
           (not_exist dir_helm)
           (log (EvFs (OpStat dir_helm))
              (fetched_manifest "registry.example/app:helm" manifest_helm w0))
           (app_manifest "application/vnd.cncf.helm.config.v1+json"));
    try reflexivity.
  vm_compute. discriminate.
Defined.

(** C4, as stated, fails: the second load of a digest-addressed reference
    returns the same path, but it has asked the resolver once more. *)
Lemma second_Load_fetches_manifest :
  fst (Load E0 g0 tt app_digest w0) = Ok file_v1 /\
  fst (Load E0 g0 tt app_digest w_digest) = Ok file_v1 /\
  resolver_calls (trace w_digest) = 3 /\
  resolver_calls (trace (snd (Load E0 g0 tt app_digest w_digest))) = 4 /\
  resolver_calls (trace (snd (Load E0 g0 tt app_digest w_digest)))
    <> resolver_calls (trace w_digest).
Proof. repeat split; vm_compute; (reflexivity || discriminate). Qed.

Lemma Load_again_witness :
  Load E0 g0 tt app_digest w_digest
  = (Ok file_v1,
     log (EvFs (OpStat dir_v1))
       (fetched_manifest "registry.example/app@sha256:1111" manifest_v1 w_digest)) /\
  resolver_calls
    (trace (log (EvFs (OpStat dir_v1))
       (fetched_manifest "registry.example/app@sha256:1111" manifest_v1 w_digest)))
    = S (resolver_calls (trace w_digest)) /\
  nodes (log (EvFs (OpStat dir_v1))
       (fetched_manifest "registry.example/app@sha256:1111" manifest_v1 w_digest))
    = nodes w_digest.
Proof.
  apply (Load_again E0 g0 tt app_digest w0
           "registry.example/app@sha256:1111" tt (fst manifest_v1) (snd manifest_v1)
           (fetched_manifest "registry.example/app@sha256:1111" manifest_v1 w0)
           file_v1 w_digest
           "registry.example/app@sha256:1111" tt (fst manifest_v1) (snd manifest_v1)
           (fetched_manifest "registry.example/app@sha256:1111" manifest_v1 w_digest));
    reflexivity.
Defined.



Lemma Load_offline_witness :
  Load E0 (loader E0 tt true) tt "oci" w0 = (Ok "", w0).
Proof. apply (Load_offline E0 (loader E0 tt true) tt "oci" w0). reflexivity. Defined.

Lemma Load_invalid_reference_witness :
  Load E0 g0 tt "oci://registry.example/my app" w0
  = (Fail (LibError "reference" "invalid reference format"), w0).
Proof.
  apply (Load_invalid_reference E0 g0 tt "oci://registry.example/my app"
           "registry.example/my app" w0); reflexivity.
Defined.


Lemma Load_cache_hit_witness :
  Load E0 g0 tt app_v1 w_cached =
    (Ok (compose_file g0 (snd manifest_v1)),
     log (EvFs (OpStat (cache_dir g0 (snd manifest_v1))))
       (log (EvGet "registry.example/app:v1" (Ok manifest_v1)) w_cached)) /\
  resolver_calls
    (trace (log (EvFs (OpStat (cache_dir g0 (snd manifest_v1))))
       (log (EvGet "registry.example/app:v1" (Ok manifest_v1)) w_cached)))
  = S (resolver_calls (trace w_cached)).
Proof.
  apply (Load_cache_hit E0 g0 tt app_v1 w_cached "registry.example/app:v1" tt
           (fst manifest_v1) (snd manifest_v1)
           (fetched_manifest "registry.example/app:v1" manifest_v1 w_cached)).
  - reflexivity.
  - reflexivity.
  - exists Dir. vm_compute. reflexivity.
Defined.

Lemma Load_stat_error_is_hit_witness :
  nodes w0 !! file_v1 = None /\
  Load E_denied (loader E_denied tt false) tt app_v1 w0
  = (Ok "/home/user/.cache/docker-compose/1111/compose.yaml",
     log (EvFs (OpStat "/home/user/.cache/docker-compose/1111"))
       (fetched_manifest "registry.example/app:v1" manifest_v1 w0)) /\
  nodes (log (EvFs (OpStat "/home/user/.cache/docker-compose/1111"))
       (fetched_manifest "registry.example/app:v1" manifest_v1 w0)) = nodes w0 /\
  trace (log (EvFs (OpStat "/home/user/.cache/docker-compose/1111"))
       (fetched_manifest "registry.example/app:v1" manifest_v1 w0))
  = EvFs (OpStat "/home/user/.cache/docker-compose/1111")
      :: trace (fetched_manifest "registry.example/app:v1" manifest_v1 w0).
Proof.
  split; [reflexivity|].
  apply (Load_stat_error_is_hit E_denied (loader E_denied tt false) tt app_v1 w0
           "registry.example/app:v1" tt (fst manifest_v1) (snd manifest_v1)
           (fetched_manifest "registry.example/app:v1" manifest_v1 w0)
           (PathError "stat" "/home/user/.cache/docker-compose/1111" EACCES));
    reflexivity.
Defined.

(** * More of package remote *)

Import RemoteEnabled.

(** ** The activation switch *)

Lemma existsb_eqb_In (v : string) (l : list string) :
  existsb (String.eqb v) l = true <-> In v l.
Proof.
  rewrite existsb_exists. split.
  - intros (x & Hin & Heq). apply String.eqb_eq in Heq. by subst.
  - intros Hin. exists v. split; [done|]. apply String.eqb_refl.
Qed.

Lemma os_Getenv_nonempty environ key v :
  os_Getenv environ key = v -> v <> "" -> environ !! key = Some v.
Proof.
  unfold os_Getenv. destruct (environ !! key) as [x|]; simpl; intros <- H; congruence.
Qed.

(** X1. The loader is enabled exactly when the variable is set to one of
    the six spellings of true that [strconv.ParseBool] knows. *)
Theorem OCIRemoteLoaderEnabled_true quote environ :
  OCIRemoteLoaderEnabled quote environ = Ok true <->
  exists v, environ !! oci_remote_variable = Some v /\ In v true_spellings.
Proof.
  unfold OCIRemoteLoaderEnabled, strconv_ParseBool.
  set (v := os_Getenv environ oci_remote_variable).
  assert (Hv : os_Getenv environ oci_remote_variable = v) by done. clearbody v.
  split.
  - destruct (String.eqb_spec v ""); [discriminate|]. cbn [negb].
    destruct (existsb (String.eqb v) true_spellings) eqn:Ht.
    + intros _. exists v. split; [by eapply os_Getenv_nonempty|].
      by apply existsb_eqb_In.
    + destruct (existsb (String.eqb v) false_spellings); discriminate.
  - intros (x & Hx & Hin). unfold os_Getenv in Hv. rewrite Hx in Hv. simpl in Hv. subst x.
    destruct (String.eqb_spec v "") as [->|_].
    { simpl in Hin. intuition discriminate. }
    cbn [negb]. apply existsb_eqb_In in Hin. by rewrite Hin.
Qed.

(** X2. The switch fails exactly when the variable holds a non-empty
    value that is none of the twelve spellings [strconv.ParseBool]
    accepts (so [yes], [on] or [TrUe] are errors); the error names the
    variable and carries the parser's message. *)
Theorem OCIRemoteLoaderEnabled_error quote environ e :
  OCIRemoteLoaderEnabled quote environ = Fail e <->
  exists v, environ !! oci_remote_variable = Some v /\
    v <> "" /\ ~ In v true_spellings /\ ~ In v false_spellings /\
    e = Errorf
          ("COMPOSE_EXPERIMENTAL_OCI_REMOTE environment variable expects boolean value: "
             +:+ ("strconv.ParseBool: parsing " +:+ quote v +:+ ": invalid syntax")).
Proof.
  unfold OCIRemoteLoaderEnabled, strconv_ParseBool.
  set (v := os_Getenv environ oci_remote_variable).
  assert (Hv : os_Getenv environ oci_remote_variable = v) by done. clearbody v.
  split.
  - destruct (String.eqb_spec v "") as [|Hne]; [discriminate|]. cbn [negb].
    destruct (existsb (String.eqb v) true_spellings) eqn:Ht; [discriminate|].
    destruct (existsb (String.eqb v) false_spellings) eqn:Hf; [discriminate|].
    intros [= <-]. exists v. split; [by eapply os_Getenv_nonempty|]. split; [done|].
    split; [|split; [|done]]; rewrite <- existsb_eqb_In; congruence.
  - intros (x & Hx & Hne & Hnt & Hnf & ->).
    unfold os_Getenv in Hv. rewrite Hx in Hv. simpl in Hv. subst x.
    destruct (String.eqb_spec v ""); [done|]. cbn [negb].
    rewrite <- existsb_eqb_In in Hnt, Hnf.
    destruct (existsb (String.eqb v) true_spellings); [done|].
    by destruct (existsb (String.eqb v) false_spellings).
Qed.

(** ** Accepting a reference *)

(** [Accept] holds exactly for the references that begin with
    [oci://]; the loader's state plays no part. *)
Theorem Accept_iff_prefix (E : Externals) (g : ociRemoteLoader E) (path : string) :
  Accept g path = true <-> exists rest, path = "oci://" +:+ rest.
Proof.
  split.
  - apply prefix_split.
  - intros [rest ->]. unfold Accept, prefix. simpl.
    repeat (destruct (ascii_dec _ _); [|done]). by destruct rest.
Qed.

(** ** Constructing the loader *)

Lemma walk_length : forall s acc q,
  In q (walk acc s) -> String.length q <= String.length acc + String.length s.
Proof.
  induction s as [|c s IH]; intros acc q; simpl.
  - destruct (String.eqb acc ""); [done|]. intros [<-|[]]. lia.
  - intros Hin. apply in_app_or in Hin as [Hin|Hin].
    + destruct (Ascii.eqb c slash && negb (String.eqb acc "")); [|done].
      destruct Hin as [<-|[]]. lia.
    + apply IH in Hin. rewrite length_append in Hin. simpl in Hin. lia.
Qed.

Lemma mkdirs_other ps : forall (m m' : gmap string node) q,
  mkdirs ps m = inr m' -> ~ In q ps -> m' !! q = m !! q.
Proof.
  induction ps as [|a ps IH]; simpl; intros m m' q H Hq.
  - by inversion H.
  - destruct (m !! a) as [[|d]|] eqn:Ha; [|discriminate|].
    + apply IH; tauto.
    + rewrite (IH _ _ q H) by tauto. apply lookup_insert_ne. tauto.
Qed.

(** Whatever its outcome, [os.MkdirAll] keeps what is there and touches
    no path longer than its argument. *)
Lemma os_MkdirAll_any (E : Externals) p w r w' :
  os_MkdirAll E p w = (r, w') ->
  (forall q n, nodes w !! q = Some n -> nodes w' !! q = Some n) /\
  (forall q, String.length p < String.length q -> nodes w' !! q = nodes w !! q) /\
  (is_Some (nodes w !! p) -> nodes w' = nodes w).
Proof.
  unfold os_MkdirAll. destruct (fs_fault E w (OpMkdirAll p)); [by intros [= <- <-]|].
  destruct (nodes w !! p) as [[|d]|] eqn:Hp; try by intros [= <- <-].
  destruct (String.eqb p ""); [by intros [= <- <-]|].
  destruct (mkdirs _ _) as [[no q']|m] eqn:Hm; intros [= <- <-]; [done|]. simpl.
  split; [|split].
  - intros q n. by eapply mkdirs_keeps.
  - intros q Hlen. eapply mkdirs_other; [exact Hm|].
    intros Hin. apply walk_length in Hin. simpl in Hin. lia.
  - by intros [? ?].
Qed.

Lemma cache_file_is_longer home :
  filepath_Join home (filepath_Join "docker-compose" "oci")
  = filepath_Join home "docker-compose" +:+ "/oci".
Proof.
  change (filepath_Join "docker-compose" "oci") with "docker-compose/oci".
  unfold filepath_Join. destruct (String.eqb home ""); [reflexivity|].
  change (String.eqb "docker-compose/oci" "") with false.
  change (String.eqb "docker-compose" "") with false. cbv iota.
  destruct (String.eqb home "/"); by rewrite !append_assoc.
Qed.

(** X3. A successful construction returns a loader with the given client
    and offline flag whose cache directory is there afterwards.  It
    removes nothing from the tree, changes nothing at all when the
    directory was already there, and never creates the file [oci] whose
    name it only borrowed to get the directory made. *)
Theorem NewOCIRemoteLoader_success (E : Externals) cli off w g w' :
  NewOCIRemoteLoader E cli off w = (Ok g, w') ->
  dockerCli g = cli /\ offline g = off /\
  is_Some (nodes w' !! cache g) /\
  (forall q n, nodes w !! q = Some n -> nodes w' !! q = Some n) /\
  (is_Some (nodes w !! cache g) -> nodes w' = nodes w) /\
  nodes w' !! filepath_Join (xdg_CacheHome E) (filepath_Join "docker-compose" "oci")
    = nodes w !! filepath_Join (xdg_CacheHome E) (filepath_Join "docker-compose" "oci").
Proof.
  intros Hnew. destruct (NewOCIRemoteLoader_ok _ _ _ _ _ _ Hnew) as (Hcache & Hcli & Hoff).
  split; [done|]. split; [done|]. rewrite Hcache. clear Hcache Hcli Hoff.
  unfold NewOCIRemoteLoader, xdg_CacheFile in Hnew.
  rewrite filepath_Dir_cache_file in Hnew.
  set (dir := filepath_Join (xdg_CacheHome E) "docker-compose") in *.
  destruct (os_Stat E dir w) as [r1 w1] eqn:Hstat.
  destruct (os_Stat_inv _ _ _ _ _ Hstat) as (-> & err & -> & _ & Hthere).
  assert (Hmk : forall r2 w2, os_MkdirAll E dir (log (EvFs (OpStat dir)) w) = (r2, w2) ->
    (exists u, r2 = Ok u) -> w2 = w' ->
    is_Some (nodes w' !! dir) /\
    (forall q n, nodes w !! q = Some n -> nodes w' !! q = Some n) /\
    (is_Some (nodes w !! dir) -> nodes w' = nodes w) /\
    nodes w' !! filepath_Join (xdg_CacheHome E) (filepath_Join "docker-compose" "oci")
      = nodes w !! filepath_Join (xdg_CacheHome E) (filepath_Join "docker-compose" "oci")).
  { intros r2 w2 Hrun [[] ->] <-.
    destruct (os_MkdirAll_ok _ _ _ _ Hrun) as (Hd & _ & _).
    destruct (os_MkdirAll_any _ _ _ _ _ Hrun) as (Hkeep & Hlong & Hsame).
    split; [by rewrite Hd|]. split; [exact Hkeep|]. split; [exact Hsame|].
    apply Hlong. rewrite cache_file_is_longer. fold dir.
    rewrite length_append. simpl. lia. }
  destruct err as [e|].
  - destruct (os_MkdirAll E dir _) as [[[]| |] w2] eqn:Hrun; try discriminate.
    injection Hnew as _ Hw. exact (Hmk (Ok tt) w2 eq_refl (ex_intro _ tt eq_refl) Hw).
  - injection Hnew as _ <-. simpl.
    destruct (Hthere eq_refl) as [Hn|[f Hf]].
    + done.
    + exfalso. unfold os_Stat in Hstat. rewrite Hf in Hstat. discriminate.
Qed.

(** ** More of [Load] *)

Section MoreOfLoad.
Context (E : Externals).
Implicit Types (g : ociRemoteLoader E) (w : World) (p q : string).

Lemma resolve_any g ctx path w r w1 :
  resolve E g ctx path w = (r, w1) ->
  nodes w1 = nodes w /\
  (w1 = w \/ exists ref res, w1 = log (EvGet ref res) w /\
                             forall e, r = Fail e -> res = Fail e).
Proof.
  unfold resolve. destruct (slice_from _ path) as [rest|]; [|intros [= <- <-]; auto].
  unfold bind, lift, resolver_Get, ret.
  destruct (ParseDockerRef E rest) as [ref| |]; try (intros [= <- <-]; auto).
  destruct (GetImageConfig E (dockerCli g)) as [opt| |]; try (intros [= <- <-]; auto).
  destruct (registry E opt ctx w (Named_String E ref)) as [[c d]| |] eqn:Hr;
    intros [= <- <-]; (split; [done|]); right; eexists _, _; (split; [done|]);
    intros e' He'; by inversion He'.
Qed.

(** X4. When the reference cannot be parsed, the registry options
    cannot be had or the manifest fetch fails, [Load] fails with that very
    error.  The tree is untouched, and the resolver was asked at most
    once: if it was, the error is its answer. *)
Theorem Load_resolve_failure g ctx path w e w1 :
  offline g = false ->
  resolve E g ctx path w = (Fail e, w1) ->
  Load E g ctx path w = (Fail e, w1) /\
  nodes w1 = nodes w /\
  (w1 = w \/ exists ref, w1 = log (EvGet ref (Fail e)) w).
Proof.
  intros Hoff Hres. split.
  - unfold Load. rewrite Hoff. unfold bind at 1. by rewrite Hres.
  - destruct (resolve_any _ _ _ _ _ _ Hres) as (Hn & [->|(ref & res & -> & Hres')]).
    + auto.
    + split; [done|]. right. exists ref. by rewrite (Hres' e eq_refl).
Qed.

Lemma write_layers_step ref opt ctx f i layer rest w w' :
  write_layers E ref opt ctx f i (layer :: rest) w = (Ok tt, w') ->
  exists ws,
    write_layers E ref opt ctx f (S i) rest ws = (Ok tt, w') /\
    resolver_calls (trace ws) = S (resolver_calls (trace w)) /\
    write_calls (trace ws) = write_calls (trace w) + (if Nat.ltb 0 i then 2 else 1).
Proof.
  intros Hrun. simpl in Hrun. unfold bind at 1, lift in Hrun.
  destruct (WithDigest E ref (Digest_ layer)) as [d| |]; try discriminate.
  unfold bind at 1, resolver_Get in Hrun.
  destruct (registry E opt ctx w (Named_String E d)) as [got| |]; try discriminate.
  unfold bind at 1 in Hrun. destruct (Nat.ltb 0 i).
  - unfold bind at 1 in Hrun.
    destruct (File_Write E f separator _) as [[n| |] ws1] eqn:Hw1; try discriminate.
    unfold ret at 1 in Hrun. unfold bind at 1 in Hrun.
    destruct (File_Write E f (fst got) ws1) as [[n2| |] ws2] eqn:Hw2; try discriminate.
    apply File_Write_ok in Hw1 as (c1 & _ & ->).
    apply File_Write_ok in Hw2 as (c2 & _ & ->).
    eexists. split; [exact Hrun|]. simpl. split; [done|lia].
  - unfold ret at 1 in Hrun. unfold bind at 1 in Hrun.
    destruct (File_Write E f (fst got) _) as [[n2| |] ws2] eqn:Hw2; try discriminate.
    apply File_Write_ok in Hw2 as (c2 & _ & ->).
    eexists. split; [exact Hrun|]. simpl. split; [done|lia].
Qed.

Lemma write_layers_counts ref opt ctx f : forall layers i w w',
  write_layers E ref opt ctx f i layers w = (Ok tt, w') ->
  resolver_calls (trace w') = resolver_calls (trace w) + length layers /\
  write_calls (trace w') + (if Nat.ltb 0 i then 0 else 1)
  = write_calls (trace w) + 2 * length layers
    + (if Nat.ltb 0 i then 0 else match layers with [] => 1 | _ => 0 end).
Proof.
  induction layers as [|layer rest IH]; intros i w w' Hrun.
  - injection Hrun as <-. simpl. destruct (Nat.ltb 0 i); lia.
  - destruct (write_layers_step _ _ _ _ _ _ _ _ _ Hrun) as (ws & Hrest & Hc & Hw).
    destruct (IH _ _ _ Hrest) as (Hc' & Hw'). change (Nat.ltb 0 (S i)) with true in Hw'.
    simpl length. split; [lia|]. destruct (Nat.ltb 0 i); lia.
Qed.

(** X5. What a successful cache miss costs: one resolver call for the
    manifest and one per layer, and, for [N] layers, [2N - 1] writes (one
    per layer, one per separator; none for an empty manifest). *)
Theorem Load_miss_cost g ctx path w ref opt content desc w1 err w2 p w' :
  offline g = false ->
  resolve E g ctx path w = (Ok (ref, opt, content, desc), w1) ->
  os_Stat E (cache_dir g desc) w1 = (Ok err, w2) ->
  os_IsNotExist err = true ->
  Load E g ctx path w = (Ok p, w') ->
  exists m,
    Unmarshal E content = Ok m /\
    resolver_calls (trace w') = resolver_calls (trace w) + 1 + length (Layers m) /\
    write_calls (trace w') = write_calls (trace w) + (2 * length (Layers m) - 1).
Proof.
  intros Hoff Hres Hstat Herr Hload.
  rewrite (Load_miss _ _ _ _ _ _ _ _ _ _ _ _ Hoff Hres Hstat Herr) in Hload.
  unfold bind at 1 in Hload.
  destruct (populate E ref opt ctx content (cache_dir g desc) (compose_file g desc) w2)
    as [[[]| |] wp] eqn:Hpop; try discriminate.
  injection Hload as _ <-.
  destruct (populate_ok_inv _ _ _ _ _ _ _ _ _ Hpop)
    as (w3 & w4 & m & w5 & Hmk & Hcr & Hm & _ & Hloop & ->).
  destruct (os_Create_ok _ _ _ _ _ Hcr) as (_ & _ & ->).
  destruct (write_layers_counts _ _ _ _ _ _ _ _ Hloop) as (Hc & Hw).
  change (Nat.ltb 0 0) with false in Hw. cbv iota in Hw.
  exists m. split; [done|]. simpl in *.
  rewrite (os_MkdirAll_trace _ _ _ _ _ Hmk) in Hc, Hw.
  destruct (os_Stat_inv _ _ _ _ _ Hstat) as (-> & _).
  destruct (resolve_inv _ _ _ _ _ _ _ _ _ _ Hres) as (rest & _ & _ & _ & _ & ->).
  simpl in *. split; [lia|]. destruct (Layers m); simpl in *; lia.
Qed.

End MoreOfLoad.

Section TreeOfLoad.
Context (E : Externals).
Implicit Types (g : ociRemoteLoader E) (w : World) (p q : string).




Lemma Load_later_hit_hex g ctx path wl ref opt content desc' wl1 desc :
  offline g = false ->
  resolve E g ctx path wl = (Ok (ref, opt, content, desc'), wl1) ->
  Hex (Digest_ desc') = Hex (Digest_ desc) ->
  is_Some (nodes wl !! cache_dir g desc) ->
  Load E g ctx path wl =
    (Ok (compose_file g desc), log (EvFs (OpStat (cache_dir g desc))) wl1).
Proof.
  intros Hoff Hres Hhex Hdir.
  assert (Hd : cache_dir g desc = cache_dir g desc') by (unfold cache_dir; by rewrite Hhex).
  unfold compose_file. rewrite Hd in *.
  destruct (resolve_inv _ _ _ _ _ _ _ _ _ _ Hres) as (rest & _ & _ & _ & _ & Hwl1).
  apply (Load_hit_present _ _ _ _ _ _ _ _ _ _ Hoff Hres). by subst wl1.
Qed.

(** X7. The entry is keyed by the hex part of the manifest digest and by
    nothing else.  After a [Load] that succeeded (its existence check not
    faulted), a [Load] of any reference, the same or another, whose
    manifest digest has the same hex part is a hit on that entry: it
    returns the same path after one resolver call and one existence
    check. *)
Theorem Load_shares_entry g ctx path w ref opt content desc w1 p w'
    path2 ref2 opt2 content2 desc2 w1' :
  offline g = false ->
  resolve E g ctx path w = (Ok (ref, opt, content, desc), w1) ->
  fs_fault E w1 (OpStat (cache_dir g desc)) = None ->
  Load E g ctx path w = (Ok p, w') ->
  resolve E g ctx path2 w' = (Ok (ref2, opt2, content2, desc2), w1') ->
  Hex (Digest_ desc2) = Hex (Digest_ desc) ->
  Load E g ctx path2 w'
  = (Ok p, log (EvFs (OpStat (cache_dir g desc)))
             (log (EvGet (Named_String E ref2) (Ok (content2, desc2))) w')).
Proof.
  intros Hoff Hres Hnf Hload Hres2 Hhex.
  destruct (Load_ok_entry _ _ _ _ _ _ _ _ _ _ _ _ Hoff Hres Hnf Hload) as (-> & Hdir).
  destruct (resolve_inv _ _ _ _ _ _ _ _ _ _ Hres2) as (rest & _ & _ & _ & _ & Hw).
  rewrite <- Hw. by apply (Load_later_hit_hex g ctx path2 w' ref2 opt2 content2 desc2).
Qed.

(** X8. A compose project without layers: on a cache miss, once the
    directory and the file are created, [Load] succeeds and leaves an
    empty composed file, after the manifest fetch alone and without a
    single write. *)
Theorem Load_no_layers g ctx path w ref opt content desc w1 err w2 w3 f w4 m :
  offline g = false ->
  resolve E g ctx path w = (Ok (ref, opt, content, desc), w1) ->
  os_Stat E (cache_dir g desc) w1 = (Ok err, w2) ->
  os_IsNotExist err = true ->
  os_MkdirAll E (cache_dir g desc) w2 = (Ok tt, w3) ->
  os_Create E (compose_file g desc) w3 = (Ok f, w4) ->
  Unmarshal E content = Ok m ->
  MediaType (Config m) = compose_media_type ->
  Layers m = [] ->
  Load E g ctx path w
  = (Ok (compose_file g desc), log (EvFs (OpClose (compose_file g desc))) w4) /\
  nodes w4 !! compose_file g desc = Some (File "") /\
  resolver_calls (trace w4) = S (resolver_calls (trace w)) /\
  write_calls (trace w4) = write_calls (trace w).
Proof.
  intros Hoff Hres Hstat Herr Hmk Hcr Hm Hmt Hl.
  rewrite (Load_miss _ _ _ _ _ _ _ _ _ _ _ _ Hoff Hres Hstat Herr).
  unfold bind at 1. rewrite (populate_created _ _ _ _ _ _ _ _ _ _ _ Hmk Hcr).
  apply String.eqb_eq in Hmt.
  unfold defer, bind, lift. rewrite Hm. cbv beta iota. rewrite Hmt, Hl.
  split; [reflexivity|].
  destruct (os_Create_ok _ _ _ _ _ Hcr) as (_ & _ & ->). simpl.
  rewrite lookup_insert_eq, (os_MkdirAll_trace _ _ _ _ _ Hmk).
  destruct (os_Stat_inv _ _ _ _ _ Hstat) as (-> & _).
  by destruct (resolve_inv _ _ _ _ _ _ _ _ _ _ Hres) as (rest & _ & _ & _ & _ & ->).
Qed.

End TreeOfLoad.

(** * cmd/compose *)

Import Compose.

(** X9. The binary runs as a Docker CLI plugin, not standalone, exactly
    when its first argument is the plugin metadata subcommand or
    [compose]; with no argument at all it is standalone. *)
Theorem RunningAsStandalone_plugin (meta : string) (Args : list string) :
  RunningAsStandalone meta Args = false <->
  exists a0 a1 rest, Args = a0 :: a1 :: rest /\ (a1 = meta \/ a1 = "compose").
Proof.
  unfold RunningAsStandalone, PluginName. split.
  - destruct Args as [|a0 [|a1 rest]]; [discriminate..|]. simpl.
    intros H. exists a0, a1, rest. split; [done|].
    destruct (String.eqb_spec a1 meta); [by left|].
    destruct (String.eqb_spec a1 "compose"); [by right|discriminate].
  - intros (a0 & a1 & rest & -> & [->| ->]); simpl.
    + by rewrite String.eqb_refl.
    + by rewrite andb_false_r.
Qed.

(** ** The environment file *)

Lemma os_Setenv_ok k v (environ environ' : gmap string string) r :
  os_Setenv k v environ = (r, environ') ->
  (r = Ok tt /\ environ' = <[k := v]> environ) \/
  ((exists e, r = Fail e) /\ environ' = environ).
Proof.
  unfold os_Setenv. destruct (_ || _); intros [= <- <-]; [right|left]; eauto.
Qed.

Lemma set_missing_keeps entries : forall (environ environ' : gmap string string) r,
  set_missing entries environ = (r, environ') ->
  forall k v, environ !! k = Some v -> environ' !! k = Some v.
Proof.
  induction entries as [|[k0 v0] rest IH]; simpl; intros environ environ' r Hrun k v Hk.
  - by injection Hrun as _ <-.
  - destruct (environ !! k0) eqn:Hk0; [by eapply IH|].
    destruct (os_Setenv k0 v0 environ) as [r1 env1] eqn:Hset.
    destruct (os_Setenv_ok _ _ _ _ _ Hset) as [[-> ->]|[[e ->] ->]].
    + eapply IH; [exact Hrun|]. rewrite lookup_insert_ne; [done|congruence].
    + by injection Hrun as _ <-.
Qed.

Lemma set_missing_union entries : forall (environ environ' : gmap string string),
  set_missing entries environ = (Ok tt, environ') ->
  environ' = environ ∪ list_to_map entries.
Proof.
  induction entries as [|[k0 v0] rest IH]; simpl; intros environ environ' Hrun.
  - injection Hrun as <-. by rewrite (right_id_L ∅ (∪)).
  - destruct (environ !! k0) as [x|] eqn:Hk0.
    + rewrite (IH _ _ Hrun). apply map_eq. intros i.
      rewrite !lookup_union. destruct (decide (k0 = i)) as [<-|Hne].
      * rewrite Hk0, lookup_insert_eq. by destruct (list_to_map rest !! k0).
      * by rewrite lookup_insert_ne.
    + destruct (os_Setenv k0 v0 environ) as [r1 env1] eqn:Hset.
      destruct (os_Setenv_ok _ _ _ _ _ Hset) as [[-> ->]|[[e ->] ->]]; [|discriminate].
      rewrite (IH _ _ Hrun). by rewrite <- insert_union_l, insert_union_r.
Qed.

Section ComposeProperties.
Context {E : Externals} {ServiceSpec ProjectSpec GitLoader : Type}.
Context (L : @Libraries E ServiceSpec ProjectSpec GitLoader).

(** X10. The process environment has precedence over the environment
    file: whatever its outcome, [setEnvWithDotEnv] leaves every variable
    that was set as it was; and when it succeeds, the environment is the
    old one completed by the entries of the file. *)
Theorem setEnvWithDotEnv_precedence prjOpts w (environ environ' : gmap string string) r :
  setEnvWithDotEnv L prjOpts w environ = (r, environ') ->
  (forall k v, environ !! k = Some v -> environ' !! k = Some v) /\
  (r = Ok tt ->
   exists options workingDir entries,
     toProjectOptions L prjOpts [] environ w = Ok options /\
     GetWorkingDir L options = Ok workingDir /\
     GetEnvFromFile L environ workingDir (options_EnvFiles L options) = Ok entries /\
     environ' = environ ∪ list_to_map entries).
Proof.
  unfold setEnvWithDotEnv.
  destruct (toProjectOptions L prjOpts [] environ w) as [options| |] eqn:Hopt;
    [|intros [= <- <-]; by split..].
  destruct (GetWorkingDir L options) as [dir| |] eqn:Hdir;
    [|intros [= <- <-]; by split..].
  destruct (GetEnvFromFile L environ dir _) as [entries| |] eqn:Hfile;
    [|intros [= <- <-]; by split..].
  intros Hrun. split; [by eapply set_missing_keeps|].
  intros ->. exists options, dir, entries. repeat split; try done.
  by apply set_missing_union.
Qed.

(** ** Configuring the remote loaders *)

(** X11. When [configureRemoteLoaders] succeeds it has only added to the
    options it was given: a Git loader if that one is enabled, then an OCI
    loader if the OCI switch is on, each as a resource-loader option.
    The OCI loader carries the offline flag of the project options and
    the given client, and caches under [<cache home>/docker-compose].
    With both switches off nothing is constructed and the world is as
    it was. *)
Theorem configureRemoteLoaders_appends o cli po environ w po' w' :
  configureRemoteLoaders L o cli po environ w = (Ok po', w') ->
  exists gits ocis,
    po' = (po ++ gits ++ ocis)%list /\
    ((gits = [] /\ GitRemoteLoaderEnabled L environ = Ok false) \/
     (exists git, gits = [WithResourceLoader (LoaderGit git)] /\
                  GitRemoteLoaderEnabled L environ = Ok true)) /\
    ((ocis = [] /\ OCIRemoteLoaderEnabled (strconv_Quote L) environ = Ok false) \/
     (exists g, ocis = [WithResourceLoader (LoaderOCI g)] /\
                OCIRemoteLoaderEnabled (strconv_Quote L) environ = Ok true /\
                offline g = Offline o /\ dockerCli g = cli /\
                cache g = filepath_Join (xdg_CacheHome E) "docker-compose")) /\
    (gits = [] -> ocis = [] -> w' = w).
Proof.
  unfold configureRemoteLoaders. unfold bind at 1, lift.
  destruct (GitRemoteLoaderEnabled L environ) as [git_on| |] eqn:Hgit; try discriminate.
  unfold bind at 1.
  assert (Hoci : forall po1 w1 gits,
    po1 = (po ++ gits)%list ->
    bind (lift (OCIRemoteLoaderEnabled (strconv_Quote L) environ)) (fun enabled =>
      if enabled
      then bind (NewOCIRemoteLoader E cli (Offline o)) (fun git =>
           ret (po1 ++ [WithResourceLoader (LoaderOCI git)])%list)
      else ret po1) w1 = (Ok po', w') ->
    exists ocis, po' = (po ++ gits ++ ocis)%list /\
      ((ocis = [] /\ OCIRemoteLoaderEnabled (strconv_Quote L) environ = Ok false) \/
       (exists g, ocis = [WithResourceLoader (LoaderOCI g)] /\
                  OCIRemoteLoaderEnabled (strconv_Quote L) environ = Ok true /\
                  offline g = Offline o /\ dockerCli g = cli /\
                  cache g = filepath_Join (xdg_CacheHome E) "docker-compose")) /\
      (ocis = [] -> w' = w1)).
  { intros po1 w1 gits -> Hrun. unfold bind at 1, lift in Hrun.
    destruct (OCIRemoteLoaderEnabled _ environ) as [[|]| |] eqn:Hon; try discriminate.
    - unfold bind, ret in Hrun.
      destruct (NewOCIRemoteLoader E cli (Offline o) w1) as [[g| |] w2] eqn:Hnew;
        try discriminate.
      injection Hrun as <- <-.
      destruct (NewOCIRemoteLoader_ok _ _ _ _ _ _ Hnew) as (Hc & Hd & Ho).
      exists [WithResourceLoader (LoaderOCI g)]. split; [by rewrite app_assoc|].
      split; [right; by exists g|discriminate].
    - injection Hrun as <- <-. exists []. split; [by rewrite app_nil_r|].
      split; [by left|done]. }
  destruct git_on.
  - unfold bind at 1.
    destruct (NewGitRemoteLoader L (Offline o) w) as [[git| |] w1] eqn:Hnew;
      try discriminate.
    unfold ret at 1. intros Hrun.
    destruct (Hoci _ w1 [WithResourceLoader (LoaderGit git)] eq_refl Hrun)
      as (ocis & -> & Ho & _).
    eexists _, ocis. split; [done|]. split; [right; by exists git|].
    split; [done|discriminate].
  - unfold ret at 1. intros Hrun.
    destruct (Hoci po w [] (eq_sym (app_nil_r po)) Hrun) as (ocis & -> & Ho & Hw).
    exists [], ocis. split; [done|]. split; [by left|]. split; [done|]. by intros _.
Qed.

(** X12. [ToProject] configures the remote loaders only when the project
    options are not offline.  So it either fails with the error of that
    configuration, before any project option is read and with the
    separator as it was, or it goes on to load the project with the
    options it was given followed by nothing but resource loaders: none
    when offline, and otherwise every OCI loader among them has its
    offline flag off. *)
Theorem ToProject_loaders o cli services po environ s r s' :
  ToProject L o cli services po environ s = (r, s') ->
  (exists extra w1,
     (r, s') = loadProject L o services (po ++ extra) environ
                 {| world := w1; api_Separator := api_Separator s |} /\
     (Offline o = true -> extra = [] /\ w1 = world s) /\
     (forall x, In x extra -> exists l, x = WithResourceLoader l) /\
     (forall g, In (WithResourceLoader (LoaderOCI g)) extra ->
                offline g = false /\
                cache g = filepath_Join (xdg_CacheHome E) "docker-compose")) \/
  (Offline o = false /\ api_Separator s' = api_Separator s /\
   ((exists e, r = Fail e /\
       configureRemoteLoaders L o cli po environ (world s) = (Fail e, world s')) \/
    (exists msg, r = Panic msg /\
       configureRemoteLoaders L o cli po environ (world s) = (Panic msg, world s')))).
Proof.
  unfold ToProject. destruct (Offline o) eqn:Hoff; cbn [negb].
  - intros Hrun. left. exists [], (world s). rewrite app_nil_r.
    split; [by destruct s|]. split; [done|]. split; intros ? [].
  - destruct (configureRemoteLoaders L o cli po environ (world s)) as [[po1| |] w1] eqn:Hc.
    + intros Hrun. left.
      destruct (configureRemoteLoaders_appends _ _ _ _ _ _ _ Hc)
        as (gits & ocis & -> & Hg & Ho & _).
      exists (gits ++ ocis)%list, w1. split; [done|]. split; [discriminate|]. split.
      * intros x Hx. apply in_app_or in Hx as [Hx|Hx].
        -- destruct Hg as [[-> _]|(git & -> & _)]; [done|].
           destruct Hx as [<-|[]]. eauto.
        -- destruct Ho as [[-> _]|(g & -> & _)]; [done|].
           destruct Hx as [<-|[]]. eauto.
      * intros g Hx. apply in_app_or in Hx as [Hx|Hx].
        -- destruct Hg as [[-> _]|(git & -> & _)]; [done|].
           destruct Hx as [Hx|[]]. discriminate.
        -- destruct Ho as [[-> _]|(g' & -> & _ & Hoffl & _ & Hcache)]; [done|].
           destruct Hx as [[= <-]|[]]. by rewrite Hoffl, Hoff.
    + intros [= <- <-]. right. split; [done|]. split; [done|]. left. eauto.
    + intros [= <- <-]. right. split; [done|]. split; [done|]. right. eauto.
Qed.

(** ** Loading the project *)

(** X13. [ToProject] may switch [api.Separator] to the underscore, and
    never switches it back: afterwards the separator is the underscore
    or what it was, whatever the outcome. *)
Theorem ToProject_separator o cli services po environ s r s' :
  ToProject L o cli services po environ s = (r, s') ->
  (api_Separator s' = "_" \/ api_Separator s' = api_Separator s) /\
  (api_Separator s = "_" -> api_Separator s' = "_").
Proof.
  assert (Hload : forall po1 s1 r1 s1',
    loadProject L o services po1 environ s1 = (r1, s1') ->
    api_Separator s1' = "_" \/ api_Separator s1' = api_Separator s1).
  { intros po1 s1 r1 s1'. unfold loadProject.
    destruct (toProjectOptions L o po1 environ (world s1)) as [options| |];
      [|intros [= _ <-]; by right..].
    set (sep := if Compatibility o || _ then _ else s1).
    assert (Hsep : api_Separator sep = "_" \/ api_Separator sep = api_Separator s1)
      by (subst sep; destruct (_ || _); auto).
    clearbody sep.
    destruct (ProjectFromOptions L options (world sep)) as [[project| |] w2];
      [|by intros [= _ <-]..].
    destruct (String.eqb (Name project) ""); [by intros [= _ <-]|].
    destruct (EnableServices L project services); by intros [= _ <-]. }
  intros Hrun.
  assert (H : api_Separator s' = "_" \/ api_Separator s' = api_Separator s).
  { destruct (ToProject_loaders _ _ _ _ _ _ _ _ Hrun)
      as [(extra & w1 & Heq & _)|(_ & Hs & _)]; [|by right].
    symmetry in Heq. by apply Hload in Heq. }
  split; [done|]. intros Hs. destruct H as [H|H]; congruence.
Qed.

(** A project that comes out of compose-go without a name is
    refused, after it was loaded: what loading did to the world stays,
    and so does the separator of compatibility mode. *)
Theorem loadProject_empty_name o services po environ s options project w2 :
  toProjectOptions L o po environ (world s) = Ok options ->
  ProjectFromOptions L options (world s) = (Ok project, w2) ->
  Name project = "" ->
  loadProject L o services po environ s
  = (Fail (Errorf
       "project name can't be empty. Use `--project-name` to set a valid name"),
     {| world := w2;
        api_Separator :=
          if Compatibility o
             || StringToBool L (default "" (Environment L options !! ComposeCompatibility))
          then "_" else api_Separator s |}).
Proof.
  intros Hopt Hload Hname. unfold loadProject. rewrite Hopt.
  destruct (Compatibility o || _); cbn [world]; rewrite Hload, Hname; reflexivity.
Qed.

(** X14. The labels of a service are made anew by the loop: under the
    seven label names of package [api] (all different) each service gets
    the project name, its own name, the version, the working directory,
    the compose files and [False] for one-off, the environment files
    only when there are some, and nothing else: labels it had before are
    gone.  The services keep their names and their order. *)
Theorem stamp_services_labels o project :
  NoDup [ProjectLabel L; ServiceLabel L; VersionLabel L; WorkingDirLabel L;
         ConfigFilesLabel L; OneoffLabel L; EnvironmentFileLabel L] ->
  map service_Name (Services (stamp_services L o project))
    = map service_Name (Services project) /\
  forall s, In s (Services (stamp_services L o project)) ->
    CustomLabels s !! ProjectLabel L = Some (Name project) /\
    CustomLabels s !! ServiceLabel L = Some (service_Name s) /\
    CustomLabels s !! VersionLabel L = Some (ComposeVersion L) /\
    CustomLabels s !! WorkingDirLabel L = Some (WorkingDir project) /\
    CustomLabels s !! ConfigFilesLabel L = Some (String.concat "," (ComposeFiles project)) /\
    CustomLabels s !! OneoffLabel L = Some "False" /\
    CustomLabels s !! EnvironmentFileLabel L
      = (if EnvFiles o is [] then None else Some (String.concat "," (EnvFiles o))) /\
    forall k, ~ In k [ProjectLabel L; ServiceLabel L; VersionLabel L; WorkingDirLabel L;
                      ConfigFilesLabel L; OneoffLabel L; EnvironmentFileLabel L] ->
              CustomLabels s !! k = None.
Proof.
  intros Hnd. split.
  - simpl. rewrite map_map. by apply map_ext.
  - intros s Hs. simpl in Hs. apply in_map_iff in Hs as (s0 & <- & _).
    repeat (apply NoDup_cons in Hnd as [? Hnd]).
    repeat match goal with
           | H : _ ∉ _ :: _ |- _ => apply not_elem_of_cons in H as [? ?]
           end.
    unfold stamp. cbn [CustomLabels service_Name].
    destruct (EnvFiles o) as [|f fs]; cbn [length Nat.eqb negb];
      (repeat split;
       [ repeat first [rewrite lookup_insert_eq | rewrite lookup_insert_ne by congruence];
         reflexivity ..
       | first [ by rewrite lookup_insert_eq
               | repeat rewrite lookup_insert_ne by congruence; apply lookup_empty ]
       | intros k Hk;
         repeat rewrite lookup_insert_ne
           by (intros Heq; apply Hk; rewrite <- Heq; simpl; tauto);
         apply lookup_empty ]).
Qed.

(** ** The name of the project *)

(** [toProjectName] answers with the name given in the project
    options or, when there is none, with a non-empty
    [COMPOSE_PROJECT_NAME], and in both cases loads nothing: the process
    is as it was. *)
Theorem toProjectName_without_loading o cli (environ : gmap string string) s name :
  name <> "" ->
  ProjectName o = name \/
  (ProjectName o = "" /\ environ !! ComposeProjectName = Some name) ->
  toProjectName L o cli environ s = (Ok name, s).
Proof.
  intros Hne [<-|[Hnone Henv]]; unfold toProjectName.
  - apply String.eqb_neq in Hne. by rewrite Hne.
  - rewrite Hnone. cbn [String.eqb negb]. unfold os_Getenv. rewrite Henv. simpl.
    apply String.eqb_neq in Hne. by rewrite Hne.
Qed.


End ComposeProperties.

(** * cmd/compose: the hook before every command *)

Import Root.

Section PreRunProperties.
Context {E : Externals} {ServiceSpec ProjectSpec GitLoader : Type}.
Context (L : @Libraries E ServiceSpec ProjectSpec GitLoader).
Context {X : Type} (hooks : @Hooks X).

Lemma rbind_ok {A B} (m : @R X A) (k : A -> @R X B) (st : @Root X) b st' :
  rbind m k st = (Ok b, st') ->
  exists a st1, m st = (Ok a, st1) /\ k a st1 = (Ok b, st').
Proof.
  unfold rbind. destruct (m st) as [[a| |] st1]; try discriminate.
  intros Hk. by exists a, st1.
Qed.

Lemma keeps_bind {A B C} (f : @Root X -> C) (m : @R X A) (k : A -> @R X B) :
  keeps f m -> (forall a, keeps f (k a)) -> keeps f (rbind m k).
Proof.
  intros Hm Hk st r st'. unfold rbind.
  destruct (m st) as [[a|e|s] st1] eqn:Hst.
  - intros Hrun. rewrite (Hk _ _ _ _ Hrun). exact (Hm _ _ _ Hst).
  - intros [= <- <-]. exact (Hm _ _ _ Hst).
  - intros [= <- <-]. exact (Hm _ _ _ Hst).
Qed.

Ltac step_cases :=
  intros ? ? ?;
  unfold step_dotenv, step_parent, step_noAnsi, step_verbose, step_COMPOSE_ANSI,
    step_formatter, step_NO_COLOR, step_ansi_mode, step_progress, step_workdir,
    step_envfiles, step_parallel, step_dryRun, rbind, rget, rmodify, rret, rfail;
  repeat match goal with
         | |- context [match ?x with _ => _ end] => destruct x eqn:?
         | Hm : context [match ?x with _ => _ end] |- _ => destruct x eqn:?
         | Hm : (_, _) = (_, _) |- _ => injection Hm as ? ?; subst
         end;
  intros [= <- <-]; simpl; congruence.

(** What each step leaves alone. *)

Lemma step_dotenv_keeps w :
  keeps (X := X) (fun st => (opts st, ansi st, noAnsi st, parallel st, ui_Mode st))
    (step_dotenv L w).
Proof. step_cases. Qed.

Lemma step_parent_keeps args :
  keeps (fun st => (opts st, ansi st, noAnsi st, parallel st)) (step_parent hooks args).
Proof. step_cases. Qed.

Lemma step_noAnsi_keeps :
  keeps (X := X) (fun st => (opts st, noAnsi st, parallel st, environ st, ui_Mode st))
    step_noAnsi.
Proof. step_cases. Qed.

Lemma step_verbose_keeps :
  keeps (fun st => (opts st, ansi st, parallel st, environ st, ui_Mode st))
    (step_verbose hooks).
Proof. step_cases. Qed.

Lemma step_COMPOSE_ANSI_keeps cmd :
  keeps (X := X) (fun st => (opts st, parallel st, environ st, ui_Mode st))
    (step_COMPOSE_ANSI cmd).
Proof. step_cases. Qed.

Lemma step_formatter_keeps :
  keeps (fun st => (opts st, ansi st, parallel st, environ st, ui_Mode st))
    (step_formatter hooks).
Proof. step_cases. Qed.

Lemma step_NO_COLOR_keeps :
  keeps (fun st => (opts st, ansi st, parallel st, environ st, ui_Mode st))
    (step_NO_COLOR hooks).
Proof. step_cases. Qed.

Lemma step_ansi_mode_keeps :
  keeps (fun st => (opts st, ansi st, parallel st, environ st)) (step_ansi_mode hooks).
Proof. step_cases. Qed.

Lemma step_progress_keeps :
  keeps (fun st => (opts st, ansi st, parallel st, environ st)) (step_progress L hooks).
Proof. step_cases. Qed.

Lemma step_workdir_keeps :
  keeps (fun st => (ansi st, parallel st, environ st, ui_Mode st)) (step_workdir hooks).
Proof. step_cases. Qed.

Lemma step_envfiles_keeps :
  keeps (fun st => (ansi st, parallel st, environ st, ui_Mode st)) (step_envfiles hooks).
Proof. step_cases. Qed.

Lemma step_parallel_keeps cmd :
  keeps (fun st => (opts st, ansi st, environ st, ui_Mode st)) (step_parallel L hooks cmd).
Proof. step_cases. Qed.

Lemma step_dryRun_keeps :
  keeps (fun st => (opts st, ansi st, parallel st, environ st, ui_Mode st))
    (step_dryRun hooks).
Proof. step_cases. Qed.

(** A run that succeeds went through every step. *)
Lemma PersistentPreRunE_steps cmd args w (st st' : @Root X) :
  PersistentPreRunE L hooks cmd args w st = (Ok tt, st') ->
  exists s1 s2 s3 s4 s5 s6 s7 s8 s9 s10 s11 s12,
    step_dotenv L w st = (Ok tt, s1) /\
    step_parent hooks args s1 = (Ok tt, s2) /\
    step_noAnsi s2 = (Ok tt, s3) /\
    step_verbose hooks s3 = (Ok tt, s4) /\
    step_COMPOSE_ANSI cmd s4 = (Ok tt, s5) /\
    step_formatter hooks s5 = (Ok tt, s6) /\
    step_NO_COLOR hooks s6 = (Ok tt, s7) /\
    step_ansi_mode hooks s7 = (Ok tt, s8) /\
    step_progress L hooks s8 = (Ok tt, s9) /\
    step_workdir hooks s9 = (Ok tt, s10) /\
    step_envfiles hooks s10 = (Ok tt, s11) /\
    step_parallel L hooks cmd s11 = (Ok tt, s12) /\
    step_dryRun hooks s12 = (Ok tt, st').
Proof.
  unfold PersistentPreRunE. intros Hrun.
  repeat match type of Hrun with
         | rbind _ _ _ = _ =>
             let s := fresh "s" in
             let Hs := fresh "Hs" in
             apply rbind_ok in Hrun as ([] & s & Hs & Hrun)
         end.
  do 12 eexists. repeat (apply conj; [eassumption|]). eassumption.
Qed.

Ltac frames :=
  repeat match goal with
         | Hs : step_dotenv _ _ _ = _ |- _ =>
             injection (step_dotenv_keeps _ _ _ _ Hs) as ? ? ? ? ?; clear Hs
         | Hs : step_parent _ _ _ = _ |- _ =>
             injection (step_parent_keeps _ _ _ _ Hs) as ? ? ? ?; clear Hs
         | Hs : step_noAnsi _ = _ |- _ =>
             injection (step_noAnsi_keeps _ _ _ Hs) as ? ? ? ? ?; clear Hs
         | Hs : step_verbose _ _ = _ |- _ =>
             injection (step_verbose_keeps _ _ _ Hs) as ? ? ? ? ?; clear Hs
         | Hs : step_COMPOSE_ANSI _ _ = _ |- _ =>
             injection (step_COMPOSE_ANSI_keeps _ _ _ _ Hs) as ? ? ? ?; clear Hs
         | Hs : step_formatter _ _ = _ |- _ =>
             injection (step_formatter_keeps _ _ _ Hs) as ? ? ? ? ?; clear Hs
         | Hs : step_NO_COLOR _ _ = _ |- _ =>
             injection (step_NO_COLOR_keeps _ _ _ Hs) as ? ? ? ? ?; clear Hs
         | Hs : step_ansi_mode _ _ = _ |- _ =>
             injection (step_ansi_mode_keeps _ _ _ Hs) as ? ? ? ?; clear Hs
         | Hs : step_progress _ _ _ = _ |- _ =>
             injection (step_progress_keeps _ _ _ Hs) as ? ? ? ?; clear Hs
         | Hs : step_workdir _ _ = _ |- _ =>
             injection (step_workdir_keeps _ _ _ Hs) as ? ? ? ?; clear Hs
         | Hs : step_envfiles _ _ = _ |- _ =>
             injection (step_envfiles_keeps _ _ _ Hs) as ? ? ? ?; clear Hs
         | Hs : step_parallel _ _ _ _ = _ |- _ =>
             injection (step_parallel_keeps _ _ _ _ Hs) as ? ? ? ?; clear Hs
         | Hs : step_dryRun _ _ = _ |- _ =>
             injection (step_dryRun_keeps _ _ _ Hs) as ? ? ? ? ?; clear Hs
         end.

(** The steps that decide something. *)

Lemma step_noAnsi_ok (st st1 : @Root X) :
  step_noAnsi st = (Ok tt, st1) ->
  (noAnsi st = true -> ansi st = "auto") /\
  ansi st1 = (if noAnsi st then "never" else ansi st).
Proof.
  unfold step_noAnsi, rbind, rget, rmodify, rret, rfail.
  destruct (noAnsi st); [|by intros [= <-]].
  destruct (String.eqb_spec (ansi st) "auto") as [Heq|Hne]; simpl; [|discriminate].
  by intros [= <-].
Qed.

Lemma step_COMPOSE_ANSI_ok cmd (st st1 : @Root X) :
  step_COMPOSE_ANSI cmd st = (Ok tt, st1) ->
  ansi st1 = match environ st !! "COMPOSE_ANSI" with
             | Some v => if ansi_changed cmd then ansi st else v
             | None => ansi st
             end.
Proof.
  unfold step_COMPOSE_ANSI, rbind, rget, rmodify, rret.
  destruct (environ st !! "COMPOSE_ANSI"); [|by intros [= <-]].
  destruct (ansi_changed cmd); by intros [= <-].
Qed.

Lemma step_progress_ok (st st1 : @Root X) :
  step_progress L hooks st = (Ok tt, st1) ->
  let progress := Progress (opts st) in
  (progress = ui_ModeAuto hooks /\ ui_Mode st1 = ui_ModeAuto hooks) \/
  (progress = ui_ModeTTY hooks /\ ui_Mode st1 = ui_ModeTTY hooks /\ ansi st <> "never") \/
  (progress = ui_ModePlain hooks /\ ui_Mode st1 = ui_ModePlain hooks
   /\ ansi st <> "always") \/
  ((progress = ui_ModeQuiet hooks \/ progress = "none")
   /\ ui_Mode st1 = ui_ModeQuiet hooks).
Proof.
  unfold step_progress, rbind, rget, rmodify, rret, rfail. cbv zeta.
  destruct (String.eqb_spec (Progress (opts st)) (ui_ModeAuto hooks)) as [Ha|_].
  { intros [= <-]. by left. }
  destruct (String.eqb_spec (Progress (opts st)) (ui_ModeTTY hooks)) as [Ht|_].
  { destruct (String.eqb_spec (ansi st) "never"); [discriminate|].
    intros [= <-]. right; left. by repeat split. }
  destruct (String.eqb_spec (Progress (opts st)) (ui_ModePlain hooks)) as [Hp|_].
  { destruct (String.eqb_spec (ansi st) "always"); [discriminate|].
    intros [= <-]. right; right; left. by repeat split. }
  destruct (String.eqb_spec (Progress (opts st)) (ui_ModeQuiet hooks)) as [Hq|_].
  { intros [= <-]. right; right; right. split; [by left|done]. }
  destruct (String.eqb_spec (Progress (opts st)) "none") as [Hn|_]; [|discriminate].
  intros [= <-]. right; right; right. split; [by right|done].
Qed.

Lemma step_workdir_ok (st st1 : @Root X) :
  step_workdir hooks st = (Ok tt, st1) ->
  (WorkDir (opts st) <> "" -> ProjectDir (opts st) = "") /\
  opts st1 = (if String.eqb (WorkDir (opts st)) "" then opts st
              else set_ProjectDir (WorkDir (opts st)) (opts st)).
Proof.
  unfold step_workdir, rbind, rget, rmodify, rret, rfail.
  destruct (String.eqb_spec (WorkDir (opts st)) "") as [Hw|Hw]; simpl.
  { by intros [= <-]. }
  destruct (String.eqb_spec (ProjectDir (opts st)) "") as [Hp|Hp]; simpl; [|discriminate].
  by intros [= <-].
Qed.

Lemma make_absolute_ok files files' :
  (forall p q, filepath_Abs hooks p = Ok q -> filepath_IsAbs hooks q = true) ->
  make_absolute hooks files = (Ok tt, files') ->
  Forall (fun file => filepath_IsAbs hooks file = true) files' /\
  length files' = length files /\
  (forall i file, files !! i = Some file -> filepath_IsAbs hooks file = true ->
                  files' !! i = Some file).
Proof.
  intros Habs. revert files'.
  induction files as [|file others IH]; intros files'; simpl.
  { intros [= <-]. repeat split; [constructor|done]. }
  destruct (filepath_IsAbs hooks file) eqn:Hfile; simpl.
  - destruct (make_absolute hooks others) as [r others'] eqn:Hrest.
    intros [= -> <-]. destruct (IH _ eq_refl) as (Hall & Hlen & Hsame).
    repeat split; [by constructor|simpl; by rewrite Hlen|].
    intros [|i] f; simpl; [done|apply Hsame].
  - destruct (filepath_Abs hooks file) as [abs| |] eqn:Hfile'; [|discriminate..].
    destruct (make_absolute hooks others) as [r others'] eqn:Hrest.
    intros [= -> <-]. destruct (IH _ eq_refl) as (Hall & Hlen & Hsame).
    repeat split; [constructor; eauto|simpl; by rewrite Hlen|].
    intros [|i] f; simpl; [|apply Hsame].
    intros [= <-]. congruence.
Qed.

Lemma step_envfiles_ok (st st1 : @Root X) :
  step_envfiles hooks st = (Ok tt, st1) ->
  make_absolute hooks (EnvFiles (opts st)) = (Ok tt, EnvFiles (opts st1)) /\
  ProjectDir (opts st1) = ProjectDir (opts st).
Proof.
  unfold step_envfiles.
  destruct (make_absolute hooks (EnvFiles (opts st))) as [r files].
  by intros [= -> <-].
Qed.

Lemma step_parallel_ok cmd (st st1 : @Root X) :
  step_parallel L hooks cmd st = (Ok tt, st1) ->
  exists changed,
    find_compose (chain cmd) = Some changed /\
    match environ st !! ComposeParallelLimit with
    | Some v =>
        if changed then parallel st1 = parallel st
        else strconv_Atoi hooks v = Ok (parallel st1)
    | None => parallel st1 = parallel st
    end.
Proof.
  unfold step_parallel, rbind, rget, rmodify, rret, rfail.
  destruct (find_compose (chain cmd)) as [changed|]; [|discriminate].
  intros Hrun. exists changed. split; [done|].
  destruct (environ st !! ComposeParallelLimit) as [v|].
  - destruct changed; simpl in Hrun.
    + destruct (0 <? parallel st)%Z; by injection Hrun as <-.
    + destruct (strconv_Atoi hooks v) as [i| |]; [|discriminate..].
      simpl in Hrun. destruct (0 <? i)%Z; by injection Hrun as <-.
  - destruct (0 <? parallel st)%Z; by injection Hrun as <-.
Qed.

Ltac steps Hrun :=
  apply PersistentPreRunE_steps in Hrun
    as (s1 & s2 & s3 & s4 & s5 & s6 & s7 & s8 & s9 & s10 & s11 & s12
        & H1 & H2 & H3 & H4 & H5 & H6 & H7 & H8 & H9 & H10 & H11 & H12 & H13).

(** X16. When the hook succeeds, [--progress] alone has decided [ui.Mode]:
    what [--ansi] had set there is overwritten; and the two flags do not
    contradict each other. *)
Theorem PersistentPreRunE_progress cmd args w (st st' : @Root X) :
  PersistentPreRunE L hooks cmd args w st = (Ok tt, st') ->
  let progress := Progress (opts st) in
  (progress = ui_ModeAuto hooks /\ ui_Mode st' = ui_ModeAuto hooks) \/
  (progress = ui_ModeTTY hooks /\ ui_Mode st' = ui_ModeTTY hooks /\ ansi st' <> "never") \/
  (progress = ui_ModePlain hooks /\ ui_Mode st' = ui_ModePlain hooks
   /\ ansi st' <> "always") \/
  ((progress = ui_ModeQuiet hooks \/ progress = "none")
   /\ ui_Mode st' = ui_ModeQuiet hooks).
Proof.
  intros Hrun. steps Hrun.
  pose proof (step_progress_ok _ _ H9) as Hp. frames. cbv zeta in *.
  replace (opts st) with (opts s8) by congruence.
  replace (ui_Mode st') with (ui_Mode s9) by congruence.
  replace (ansi st') with (ansi s8) by congruence.
  exact Hp.
Qed.

(** X17. When the hook succeeds, [COMPOSE_ANSI] of the environment, as the
    [.env] file and the parent's hook left it, is the value of [ansi]
    unless [--ansi] was given; it wins over [--no-ansi] too. Without it
    [--no-ansi] stands for [never], and was not given together with a
    value of [--ansi] other than [auto]. *)
Theorem PersistentPreRunE_ansi cmd args w (st st' : @Root X) :
  PersistentPreRunE L hooks cmd args w st = (Ok tt, st') ->
  (noAnsi st = true -> ansi st = "auto") /\
  ansi st' = match environ st' !! "COMPOSE_ANSI" with
             | Some v =>
                 if ansi_changed cmd then (if noAnsi st then "never" else ansi st)
                 else v
             | None => if noAnsi st then "never" else ansi st
             end.
Proof.
  intros Hrun. steps Hrun.
  pose proof (step_noAnsi_ok _ _ H3) as [Hauto Hn].
  pose proof (step_COMPOSE_ANSI_ok _ _ _ H5) as Hc. frames.
  replace (noAnsi st) with (noAnsi s2) by congruence.
  replace (ansi st) with (ansi s2) by congruence.
  split; [exact Hauto|].
  replace (ansi st') with (ansi s5) by congruence.
  replace (environ st') with (environ s4) by congruence.
  rewrite Hc. replace (ansi s4) with (ansi s3) by congruence. by rewrite Hn.
Qed.

(** X18. When the hook succeeds, the deprecated [--workdir] was not given
    together with [--project-directory], and its value has become the
    project directory. *)
Theorem PersistentPreRunE_workdir cmd args w (st st' : @Root X) :
  PersistentPreRunE L hooks cmd args w st = (Ok tt, st') ->
  (WorkDir (opts st) <> "" -> ProjectDir (opts st) = "") /\
  ProjectDir (opts st') =
    (if String.eqb (WorkDir (opts st)) "" then ProjectDir (opts st)
     else WorkDir (opts st)).
Proof.
  intros Hrun. steps Hrun.
  pose proof (step_workdir_ok _ _ H10) as [Hw Ho].
  pose proof (step_envfiles_ok _ _ H11) as [_ Hdir]. frames.
  replace (opts st) with (opts s9) by congruence.
  split; [exact Hw|].
  replace (opts st') with (opts s11) by congruence.
  rewrite Hdir, Ho. by destruct (String.eqb (WorkDir (opts s9)) "").
Qed.

(** X19. When the hook succeeds and [filepath.Abs] gives absolute paths,
    every environment file of the options is absolute afterwards, and
    those that were so already are as they were. *)
Theorem PersistentPreRunE_env_files cmd args w (st st' : @Root X) :
  (forall p q, filepath_Abs hooks p = Ok q -> filepath_IsAbs hooks q = true) ->
  PersistentPreRunE L hooks cmd args w st = (Ok tt, st') ->
  Forall (fun file => filepath_IsAbs hooks file = true) (EnvFiles (opts st')) /\
  length (EnvFiles (opts st')) = length (EnvFiles (opts st)) /\
  (forall i file, EnvFiles (opts st) !! i = Some file ->
                  filepath_IsAbs hooks file = true ->
                  EnvFiles (opts st') !! i = Some file).
Proof.
  intros Habs Hrun. steps Hrun.
  pose proof (step_workdir_ok _ _ H10) as [_ Ho].
  pose proof (step_envfiles_ok _ _ H11) as [Hmk _]. frames.
  replace (opts st') with (opts s11) by congruence.
  replace (EnvFiles (opts st)) with (EnvFiles (opts s10)).
  { exact (make_absolute_ok _ _ Habs Hmk). }
  rewrite Ho. replace (opts st) with (opts s9) by congruence.
  by destruct (String.eqb (WorkDir (opts s9)) "").
Qed.

(** X20. When the hook succeeds, the command or one of its ancestors is
    named [compose]; [COMPOSE_PARALLEL_LIMIT], when set, is an integer
    and the value of [parallel], unless [--parallel] was given to that
    command. *)
Theorem PersistentPreRunE_parallel cmd args w (st st' : @Root X) :
  PersistentPreRunE L hooks cmd args w st = (Ok tt, st') ->
  exists changed,
    find_compose (chain cmd) = Some changed /\
    match environ st' !! ComposeParallelLimit with
    | Some v =>
        if changed then parallel st' = parallel st
        else strconv_Atoi hooks v = Ok (parallel st')
    | None => parallel st' = parallel st
    end.
Proof.
  intros Hrun. steps Hrun.
  pose proof (step_parallel_ok _ _ _ H12) as (changed & Hfind & Hp). frames.
  exists changed. split; [exact Hfind|].
  replace (environ st') with (environ s11) by congruence.
  replace (parallel st') with (parallel s12) by congruence.
  replace (parallel st) with (parallel s11) by congruence.
  exact Hp.
Qed.

End PreRunProperties.

(** * The further properties at work *)

Import Samples.

Lemma NewOCIRemoteLoader_success_witness :
  dockerCli g0 = tt /\ offline g0 = false /\
  is_Some (nodes w_new !! cache g0) /\
  (forall q n, nodes w0 !! q = Some n -> nodes w_new !! q = Some n) /\
  (is_Some (nodes w0 !! cache g0) -> nodes w_new = nodes w0) /\
  nodes w_new !! filepath_Join (xdg_CacheHome E0) (filepath_Join "docker-compose" "oci")
    = nodes w0 !! filepath_Join (xdg_CacheHome E0) (filepath_Join "docker-compose" "oci").
Proof. apply (NewOCIRemoteLoader_success E0 tt false w0 g0 w_new). reflexivity. Defined.

Lemma Load_resolve_failure_witness :
  Load E0 g0 tt app_none w0
    = (Fail none_error, log (EvGet "registry.example/none:v1" (Fail none_error)) w0) /\
  nodes (log (EvGet "registry.example/none:v1" (Fail none_error)) w0) = nodes w0 /\
  (log (EvGet "registry.example/none:v1" (Fail none_error)) w0 = w0 \/
   exists ref, log (EvGet "registry.example/none:v1" (Fail none_error)) w0
               = log (EvGet ref (Fail none_error)) w0).
Proof.
  apply (Load_resolve_failure E0 g0 tt app_none w0 none_error
           (log (EvGet "registry.example/none:v1" (Fail none_error)) w0)); reflexivity.
Defined.

Lemma Load_miss_cost_witness :
  exists m,
    Unmarshal E0 (fst manifest_v1) = Ok m /\
    resolver_calls (trace w_cached) = resolver_calls (trace w0) + 1 + length (Layers m) /\
    write_calls (trace w_cached) = write_calls (trace w0) + (2 * length (Layers m) - 1).
Proof.
  apply (Load_miss_cost E0 g0 tt app_v1 w0 "registry.example/app:v1" tt
           (fst manifest_v1) (snd manifest_v1) w_fetched (not_exist dir_v1) w_statted
           file_v1 w_cached); reflexivity.
Defined.


Lemma Load_shares_entry_witness :
  Load E0 g0 tt app_digest w_cached
  = (Ok file_v1,
     log (EvFs (OpStat dir_v1))
       (log (EvGet "registry.example/app@sha256:1111" (Ok manifest_v1)) w_cached)).
Proof.
  apply (Load_shares_entry E0 g0 tt app_v1 w0 "registry.example/app:v1" tt
           (fst manifest_v1) (snd manifest_v1) w_fetched file_v1 w_cached
           app_digest "registry.example/app@sha256:1111" tt
           (fst manifest_v1) (snd manifest_v1)
           (fetched_manifest "registry.example/app@sha256:1111" manifest_v1 w_cached));
    reflexivity.
Defined.

Lemma Load_no_layers_witness :
  Load E_empty g_empty tt app_empty w0
    = (Ok file_empty, log (EvFs (OpClose file_empty)) w_empty_created) /\
  nodes w_empty_created !! file_empty = Some (File "") /\
  resolver_calls (trace w_empty_created) = S (resolver_calls (trace w0)) /\
  write_calls (trace w_empty_created) = write_calls (trace w0).
Proof.
  apply (Load_no_layers E_empty g_empty tt app_empty w0 "registry.example/app:empty" tt
           (fst manifest_empty) (snd manifest_empty) w_empty_fetched
           (not_exist dir_empty) w_empty_statted w_empty_mkdir file_empty
           w_empty_created empty_manifest); reflexivity.
Defined.

Lemma setEnvWithDotEnv_precedence_witness :
  snd (setEnvWithDotEnv L0 (options "" [] true) w0 env_a) !! "A" = Some "0" /\
  snd (setEnvWithDotEnv L0 (options "" [] true) w0 env_a)
  = env_a ∪ list_to_map [("A", "1"); ("B", "2")].
Proof.
  destruct (setEnvWithDotEnv_precedence L0 (options "" [] true) w0 env_a
              (snd (setEnvWithDotEnv L0 (options "" [] true) w0 env_a)) (Ok tt))
    as [Hkeep Hunion]; [reflexivity|].
  split; [apply Hkeep; reflexivity|].
  destruct (Hunion eq_refl) as (o & d & entries & _ & _ & Hentries & ->).
  injection Hentries as <-. reflexivity.
Defined.

Lemma configureRemoteLoaders_appends_witness :
  exists gits ocis,
    [oci_option] = ([] ++ gits ++ ocis)%list /\
    ((gits = [] /\ GitRemoteLoaderEnabled L0 env_oci = Ok false) \/
     (exists git, gits = [WithResourceLoader (LoaderGit git)] /\
                  GitRemoteLoaderEnabled L0 env_oci = Ok true)) /\
    ((ocis = [] /\ OCIRemoteLoaderEnabled (strconv_Quote L0) env_oci = Ok false) \/
     (exists g, ocis = [WithResourceLoader (LoaderOCI g)] /\
                OCIRemoteLoaderEnabled (strconv_Quote L0) env_oci = Ok true /\
                offline g = Offline (options "demo" [] false) /\ dockerCli g = tt /\
                cache g = filepath_Join (xdg_CacheHome E0) "docker-compose")) /\
    (gits = [] -> ocis = [] -> w_new = w0).
Proof.
  apply (configureRemoteLoaders_appends L0 (options "demo" [] false) tt [] env_oci w0
           [oci_option] w_new).
  reflexivity.
Defined.

Lemma ToProject_loaders_witness :
  exists extra w1,
    ToProject L0 (options "demo" [] false) tt [] [] env_oci process0
      = loadProject L0 (options "demo" [] false) [] ([] ++ extra) env_oci
          {| world := w1; api_Separator := api_Separator process0 |} /\
    (forall g, In (WithResourceLoader (LoaderOCI g)) extra ->
               offline g = false /\
               cache g = filepath_Join (xdg_CacheHome E0) "docker-compose").
Proof.
  destruct (ToProject_loaders L0 (options "demo" [] false) tt [] [] env_oci process0
              (fst (ToProject L0 (options "demo" [] false) tt [] [] env_oci process0))
              (snd (ToProject L0 (options "demo" [] false) tt [] [] env_oci process0)))
    as [(extra & w1 & Hrun & _ & _ & Hoci)|(_ & _ & [(e & He & _)|(msg & Hm & _)])];
    [reflexivity| | |].
  - exists extra, w1. split; [|exact Hoci]. rewrite <- Hrun. reflexivity.
  - exfalso. vm_compute in He. discriminate He.
  - exfalso. vm_compute in Hm. discriminate Hm.
Defined.

Lemma ToProject_separator_witness :
  api_Separator (snd (ToProject L0 (options "demo" [] false) tt [] [] env_oci process0))
    = "_".
Proof.
  destruct (ToProject_separator L0 (options "demo" [] false) tt [] [] env_oci process0
              (fst (ToProject L0 (options "demo" [] false) tt [] [] env_oci process0))
              (snd (ToProject L0 (options "demo" [] false) tt [] [] env_oci process0)))
    as [[H|H] _]; [reflexivity|exact H|reflexivity].
Defined.

Lemma loadProject_empty_name_witness :
  loadProject L0 (options "" [] true) [] [] env_oci process0
  = (Fail (Errorf
       "project name can't be empty. Use `--project-name` to set a valid name"),
     {| world := w0; api_Separator := "_" |}).
Proof.
  apply (loadProject_empty_name L0 (options "" [] true) [] [] env_oci process0
           ([], ([] ++ [WithWorkingDirectory ""; WithOsEnv; WithEnvFiles [];
                        WithDotEnv; WithConfigFileEnv; WithDefaultConfigPath;
                        WithDefaultProfiles []; WithName ""])%list)
           (sample_project [] ([] ++ [WithWorkingDirectory ""; WithOsEnv; WithEnvFiles [];
                        WithDotEnv; WithConfigFileEnv; WithDefaultConfigPath;
                        WithDefaultProfiles []; WithName ""])%list) w0); reflexivity.
Defined.

Lemma stamp_services_labels_witness :
  map service_Name
    (Services (stamp_services L0 (options "demo" [] true) (sample_project ["a.yaml"] [])))
  = ["web"; "db"] /\
  forall s,
    In s (Services (stamp_services L0 (options "demo" [] true)
                      (sample_project ["a.yaml"] []))) ->
    CustomLabels s !! "com.docker.compose.service" = Some (service_Name s) /\
    CustomLabels s !! "com.docker.compose.project.config_files" = Some "a.yaml" /\
    CustomLabels s !! "com.docker.compose.project.environment_file" = None /\
    CustomLabels s !! "custom" = None.
Proof.
  destruct (stamp_services_labels L0 (options "demo" [] true)
              (sample_project ["a.yaml"] [])) as [Hnames Hlabels].
  { apply (bool_decide_unpack _). vm_compute. reflexivity. }
  split; [exact Hnames|]. intros s Hs.
  destruct (Hlabels s Hs) as (_ & Hsvc & _ & _ & Hfiles & _ & Henv & Hother).
  split; [exact Hsvc|]. split; [exact Hfiles|]. split; [exact Henv|].
  apply Hother. simpl. intros H. repeat (destruct H as [H|H]; [discriminate H|]). exact H.
Defined.

Lemma toProjectName_without_loading_witness :
  toProjectName L0 (options "" [] false) tt env_oci process0 = (Ok "fromenv", process0).
Proof.
  apply (toProjectName_without_loading L0 (options "" [] false) tt env_oci process0
           "fromenv").
  - discriminate.
  - right. split; reflexivity.
Defined.


Import RootSamples.

Lemma PersistentPreRunE_progress_witness :
  fst run0 = Ok tt /\ ui_Mode (snd run0) = "plain" /\ ansi (snd run0) <> "always".
Proof.
  split; [vm_compute; reflexivity|].
  assert (Hrun : PersistentPreRunE L0 H0 cmd_up [] w0 root0 = (Ok tt, snd run0))
    by (vm_compute; reflexivity).
  destruct (PersistentPreRunE_progress L0 H0 cmd_up [] w0 root0 (snd run0) Hrun)
    as [[He _]|[[He _]|[(_ & Hmode & Hansi)|[[He|He] _]]]];
    try discriminate He.
  exact (conj Hmode Hansi).
Defined.

Lemma PersistentPreRunE_ansi_witness :
  fst run_always = Ok tt /\ noAnsi root_always = true /\
  ansi (snd run_always) = "always".
Proof.
  split; [vm_compute; reflexivity|]. split; [vm_compute; reflexivity|].
  assert (Hrun : PersistentPreRunE L0 H0 cmd_up [] w0 root_always
                 = (Ok tt, snd run_always)) by (vm_compute; reflexivity).
  destruct (PersistentPreRunE_ansi L0 H0 cmd_up [] w0 root_always (snd run_always) Hrun)
    as [_ Hansi].
  rewrite Hansi. vm_compute. reflexivity.
Defined.

Lemma PersistentPreRunE_workdir_witness :
  fst run0 = Ok tt /\ ProjectDir (opts (snd run0)) = "/srv/app".
Proof.
  split; [vm_compute; reflexivity|].
  assert (Hrun : PersistentPreRunE L0 H0 cmd_up [] w0 root0 = (Ok tt, snd run0))
    by (vm_compute; reflexivity).
  destruct (PersistentPreRunE_workdir L0 H0 cmd_up [] w0 root0 (snd run0) Hrun)
    as [_ Hdir].
  rewrite Hdir. vm_compute. reflexivity.
Defined.

Lemma PersistentPreRunE_env_files_witness :
  fst run0 = Ok tt /\
  Forall (fun file => String.prefix "/" file = true) (EnvFiles (opts (snd run0))) /\
  EnvFiles (opts (snd run0)) !! 1%nat = Some "/etc/app.env".
Proof.
  split; [vm_compute; reflexivity|].
  assert (Hrun : PersistentPreRunE L0 H0 cmd_up [] w0 root0 = (Ok tt, snd run0))
    by (vm_compute; reflexivity).
  destruct (PersistentPreRunE_env_files L0 H0 cmd_up [] w0 root0 (snd run0))
    as (Hall & _ & Hsame); [|exact Hrun|].
  { intros p q [= <-]. reflexivity. }
  split; [exact Hall|]. apply Hsame; vm_compute; reflexivity.
Defined.

Lemma PersistentPreRunE_parallel_witness :
  fst run0 = Ok tt /\ parallel (snd run0) = 4%Z.
Proof.
  split; [vm_compute; reflexivity|].
  assert (Hrun : PersistentPreRunE L0 H0 cmd_up [] w0 root0 = (Ok tt, snd run0))
    by (vm_compute; reflexivity).
  destruct (PersistentPreRunE_parallel L0 H0 cmd_up [] w0 root0 (snd run0) Hrun)
    as (changed & Hfind & Hp).
  vm_compute in Hfind. injection Hfind as <-.
  assert (Henv : environ (snd run0) !! ComposeParallelLimit = Some "4")
    by (vm_compute; reflexivity).
  rewrite Henv in Hp.
  change (strconv_Atoi H0 "4") with (Ok 4%Z : outcome Z) in Hp.
  symmetry.
  exact (f_equal (fun r : outcome Z => match r with Ok i => i | _ => 0%Z end) Hp).
Defined.
